(** * FridgePal: the detection-to-inventory pipeline of the mobile client

    A shallow embedding of
      - [src/services/detectionService.js]  (detectFoodItems, processDetectionResults, mapCategory),
      - [src/services/storageService.js]    (getPathFromUrl),
      - [src/pages/MainTabs/Scanner.jsx]    (handleAddToFridge),
      - [src/pages/MainTabs/Home.jsx]       (handleUpdateAmount),
    together with the properties the specification states about them. *)

From Stdlib Require Import ZArith QArith Ascii String DecimalString DecimalNat DecimalZ Lia.
From stdpp Require Import base option list strings gmap.

Local Open Scope Z_scope.
Local Open Scope string_scope.

(** ** JavaScript values

    Only the fragment of the language the embedded functions touch.  A
    string is the sequence of its code units; nothing below depends on
    their width. *)
Module JS.

(** A JavaScript number: an IEEE-754 double.  A finite double is
    represented by the rational it denotes (the sign of zero is not
    observable by any of the embedded functions). *)
Inductive number :=
| NaN
| NegInf
| Fin (q : Q)
| PosInf.

(** [x < y] and [x <= y] on numbers; every comparison with NaN is false. *)
Definition lt (x y : number) : bool :=
  match x, y with
  | NaN, _ | _, NaN => false
  | _, NegInf => false
  | NegInf, _ => true
  | PosInf, _ => false
  | Fin _, PosInf => true
  | Fin a, Fin b => negb (Qle_bool b a)
  end.

Definition le (x y : number) : bool :=
  match x, y with
  | NaN, _ | _, NaN => false
  | NegInf, _ => true
  | _, PosInf => true
  | _, NegInf => false
  | PosInf, _ => false
  | Fin a, Fin b => Qle_bool a b
  end.

(** [x === y] on numbers. *)
Definition strict_eq (x y : number) : bool :=
  match x, y with
  | NegInf, NegInf | PosInf, PosInf => true
  | Fin a, Fin b => Qeq_bool a b
  | _, _ => false
  end.

(** [Math.min(x, y)] and [Math.max(x, y)] (ECMA-262, 21.3.2.24-25): NaN
    if either argument is NaN. *)
Definition Math_min (x y : number) : number :=
  match x, y with
  | NaN, _ | _, NaN => NaN
  | _, _ => if lt y x then y else x
  end.

Definition Math_max (x y : number) : number :=
  match x, y with
  | NaN, _ | _, NaN => NaN
  | _, _ => if lt x y then y else x
  end.

(** What rounding a real to a double gives: a finite double, or an
    infinity when it overflows. *)
Inductive rounded :=
| Finite (q : Q)
| Overflow (positive : bool).

Definition of_rounded (r : rounded) : number :=
  match r with
  | Finite q => Fin q
  | Overflow true => PosInf
  | Overflow false => NegInf
  end.

(** [x + y] on numbers.  The sum of two finite doubles is their exact sum,
    rounded; the rounding function is a parameter. *)
Definition add (round : Q → rounded) (x y : number) : number :=
  match x, y with
  | NaN, _ | _, NaN => NaN
  | PosInf, NegInf | NegInf, PosInf => NaN
  | PosInf, _ | _, PosInf => PosInf
  | NegInf, _ | _, NegInf => NegInf
  | Fin a, Fin b => of_rounded (round (a + b)%Q)
  end.

(** The values that flow through the detection pipeline.  [VBuiltin k]
    is the built-in object found under the key [k] of [Object.prototype]
    (a function, or the prototype itself for [__proto__]). *)
Inductive value :=
| VUndefined
| VNull
| VStr (s : string)
| VBuiltin (k : string).

(** ToBoolean. *)
Definition truthy (v : value) : bool :=
  match v with
  | VUndefined | VNull => false
  | VStr s => negb (String.eqb s "")
  | VBuiltin _ => true
  end.

(** [a || b]. *)
Definition or (a b : value) : value := if truthy a then a else b.

(** The property names of [Object.prototype] (ECMA-262, 20.1.3), which
    every object literal inherits. *)
Definition Object_prototype_keys : list string :=
  [ "constructor"; "hasOwnProperty"; "isPrototypeOf"; "propertyIsEnumerable";
    "toLocaleString"; "toString"; "valueOf"; "__proto__";
    "__defineGetter__"; "__defineSetter__"; "__lookupGetter__"; "__lookupSetter__" ].

Definition inherited (k : string) : bool :=
  bool_decide (k ∈ Object_prototype_keys).

(** [o[k]] for an object literal [o] whose own properties are the string
    table [own]: own properties first, then the prototype chain. *)
Definition get (own : gmap string string) (k : string) : value :=
  match own !! k with
  | Some s => VStr s
  | None => if inherited k then VBuiltin k else VUndefined
  end.

(** A field that is a string, [null], or absent. *)
Inductive nullable_string :=
| Absent
| Null
| Str (s : string).

Definition to_value (x : nullable_string) : value :=
  match x with
  | Absent => VUndefined
  | Null => VNull
  | Str s => VStr s
  end.

(** An Error object: its [name] and [message]. *)
Record Error := { name : string; message : string }.

Definition new_Error (msg : string) : Error :=
  {| name := "Error"; message := msg |}.

(** The outcome of evaluating code that may throw, and of awaiting a
    promise that may reject. *)
Inductive completion (A : Type) :=
| Normal (a : A)
| Throw (e : Error).
Arguments Normal {A} a.
Arguments Throw {A} e.

Definition bind {A B} (c : completion A) (k : A → completion B) : completion B :=
  match c with
  | Normal a => k a
  | Throw e => Throw e
  end.

(** [try { body } catch (error) { handler }]. *)
Definition try_catch {A} (body : completion A) (handler : Error → completion A)
  : completion A :=
  match body with
  | Normal a => Normal a
  | Throw e => handler e
  end.

(** [promise.catch(() => fallback)]. *)
Definition catch_with {A} (c : completion A) (fallback : A) : A :=
  match c with
  | Normal a => a
  | Throw _ => fallback
  end.

(** ToString on a value, as a template literal applies it.  The text of
    a built-in function is implementation-defined up to its name. *)
Definition ToString (v : value) : string :=
  match v with
  | VUndefined => "undefined"
  | VNull => "null"
  | VStr s => s
  | VBuiltin k =>
      if String.eqb k "__proto__" then "[object Object]"
      else "function " +:+ k +:+ "() { [native code] }"
  end.

(** Number::toString on a non-negative integer index, and on an integral
    time value (|t| < 10^21 prints all its digits). *)
Definition nat_to_string (n : nat) : string :=
  NilEmpty.string_of_uint (Nat.to_uint n).

Definition Z_to_string (z : Z) : string :=
  NilEmpty.string_of_int (Z.to_int z).

End JS.

(** ** The backend's detection response (backend/README.md, POST /detect) *)
Module DetectedItem.

Record t := {
  category : string;
  label : string;
  confidence : JS.number;
  extra : JS.nullable_string;
}.

End DetectedItem.

Record DetectionResponse := {
  detected_items : list DetectedItem.t;
}.

(** ** The record assembled for the application *)
Module InventoryRecord.

(** [detectedAt] holds the time value (milliseconds since the epoch, UTC)
    that [toISOString] renders. *)
Record t := {
  id : string;
  name : string;
  category : JS.value;
  confidence : JS.number;
  ocrText : JS.value;
  detectedAt : Z;
}.

End InventoryRecord.

(** ** The system clock

    [Date.now()] and [new Date()] read the wall clock.  A computation that
    reads it is a function of the number of readings made so far; [now k]
    is the value of the [k]-th reading. *)
Module Clock.

Definition M (A : Type) : Type := nat → A * nat.

Definition ret {A} (a : A) : M A := λ k, (a, k).

Definition bind {A B} (c : M A) (f : A → M B) : M B :=
  λ k, let (a, k') := c k in f a k'.

Definition read (now : nat → Z) : M Z := λ k, (now k, S k).

Definition run {A} (c : M A) (k : nat) : A := fst (c k).

End Clock.

Declare Scope clock_scope.
Delimit Scope clock_scope with clock.
Notation "'let*' x ':=' c 'in' k" := (Clock.bind c (λ x, k))
  (at level 10, x name, c at level 100, k at level 200) : clock_scope.

(** ** src/services/detectionService.js *)
Module DetectionService.

(** The object literal of [mapCategory]. *)
Definition categoryMap : gmap string string :=
  {[ "fruit" := "fruits"; "vegetable" := "vegetables"; "packaged" := "packaged" ]}.

(** [categoryMap[backendCategory] || 'other'] *)
Definition mapCategory (backendCategory : string) : JS.value :=
  JS.or (JS.get categoryMap backendCategory) (JS.VStr "other").

Section Process.

Variable now : nat → Z.

Definition Date_now : Clock.M Z := Clock.read now.
Definition new_Date : Clock.M Z := Clock.read now.

(** The callback of [detected_items.map]: the fields of the object literal
    are evaluated in order, so [Date.now()] is read before [new Date()]. *)
Definition assemble (item : DetectedItem.t) (index : nat) : Clock.M InventoryRecord.t :=
  (let* stamp := Date_now in
   let* date := new_Date in
   Clock.ret
     {| InventoryRecord.id :=
          "detected-" +:+ JS.Z_to_string stamp +:+ "-" +:+ JS.nat_to_string index;
        InventoryRecord.name := DetectedItem.label item;
        InventoryRecord.category := mapCategory (DetectedItem.category item);
        InventoryRecord.confidence := DetectedItem.confidence item;
        InventoryRecord.ocrText := JS.or (JS.to_value (DetectedItem.extra item)) JS.VNull;
        InventoryRecord.detectedAt := date |})%clock.

(** [Array.prototype.map] with a callback that takes the element and its
    index, elements visited in order from [index]. *)
Fixpoint map_from {A B} (f : A → nat → Clock.M B) (l : list A) (index : nat)
  : Clock.M (list B) :=
  match l with
  | [] => Clock.ret []
  | x :: l' =>
      (let* y := f x index in
       let* ys := map_from f l' (S index) in
       Clock.ret (y :: ys))%clock
  end.

Definition processDetectionResults (detectionResponse : DetectionResponse)
  : Clock.M (list InventoryRecord.t) :=
  map_from assemble (detected_items detectionResponse) 0%nat.

End Process.

#[local] Set Warnings "-register-all".

(** The result of [response.json()]: a parsed JSON text. *)
Inductive json :=
| JNull
| JBool (b : bool)
| JNum (n : JS.number)
| JStr (s : string)
| JArr (elements : list json)
| JObj (members : list (string * json)).

(** The value of the member [k] of a parsed object; of duplicate names the
    last one wins.  [None] is [undefined]. *)
Fixpoint member (k : string) (members : list (string * json)) : option json :=
  match members with
  | [] => None
  | (k', v) :: rest =>
      match member k rest with
      | Some w => Some w
      | None => if String.eqb k' k then Some v else None
      end
  end.

(** The TypeError of a property access on [null]. *)
Definition TypeError_null : JS.Error :=
  {| JS.name := "TypeError"; JS.message := "Cannot read property 'detail' of null" |}.

(** [errorData.detail]: throws on [null]; a primitive or an array has no
    such property. *)
Definition get_detail (errorData : json) : JS.completion (option json) :=
  match errorData with
  | JNull => JS.Throw TypeError_null
  | JObj members => JS.Normal (member "detail" members)
  | _ => JS.Normal None
  end.

(** ToBoolean on a parsed value or [undefined]. *)
Definition json_truthy (v : option json) : bool :=
  match v with
  | None | Some JNull => false
  | Some (JBool b) => b
  | Some (JNum n) =>
      match n with
      | JS.NaN => false
      | JS.Fin q => negb (Qeq_bool q 0)
      | _ => true
      end
  | Some (JStr s) => negb (String.eqb s "")
  | Some (JArr _) | Some (JObj _) => true
  end.

(** The response of [fetch]: [response.ok] holds for the statuses 200-299;
    [response.json()] fulfils with the parsed body or rejects. *)
Record Response := {
  status : nat;
  json_body : JS.completion json;
}.

Definition ok (response : Response) : bool :=
  (200 <=? status response)%nat && (status response <=? 299)%nat.

Definition timeout_message : string :=
  "Detection request timed out. Check if backend is running.".

Section ToString.

(** Number::toString, left to the engine. *)
Variable Number_toString : JS.number → string.

(** ToString on a parsed value, as [new Error(detail)] applies it to its
    argument; an array joins its elements with a comma, [null] elements
    printing as the empty string. *)
Fixpoint ToString (v : json) : string :=
  match v with
  | JNull => "null"
  | JBool true => "true"
  | JBool false => "false"
  | JNum n => Number_toString n
  | JStr s => s
  | JArr elements =>
      String.concat "," (map (λ e, match e with JNull => "" | _ => ToString e end) elements)
  | JObj _ => "[object Object]"
  end.

(** [detectFoodItems].  [fetched] is the outcome of [await fetch(...)]: the
    response, or the error the promise rejects with; when the timer of
    [BACKEND_CONFIG.TIMEOUT] fires first, [controller.abort()] makes it
    reject with an error named [AbortError]. *)
Definition detectFoodItems (fetched : JS.completion Response) : JS.completion json :=
  JS.try_catch
    (JS.bind fetched (λ response,
       if negb (ok response) then
         let errorData := JS.catch_with (json_body response) (JObj []) in
         JS.bind (get_detail errorData) (λ detail,
           JS.Throw (JS.new_Error
             (if json_truthy detail
              then match detail with Some d => ToString d | None => "undefined" end
              else "Detection failed: " +:+ JS.nat_to_string (status response))))
       else
         JS.bind (json_body response) (λ data, JS.Normal data)))
    (λ error,
       if String.eqb (JS.name error) "AbortError"
       then JS.Throw (JS.new_Error timeout_message)
       else JS.Throw error).

End ToString.

End DetectionService.


(** ** src/services/storageService.js *)
Module StorageService.

Definition BUCKET : string := "fridge-photos".

(** [String.prototype.indexOf]: the position of the first occurrence of
    [searchString] in [s], counted from [position]; -1 when there is none. *)
Fixpoint indexOf_from (s searchString : string) (position : Z) : Z :=
  if String.prefix searchString s then position
  else match s with
       | EmptyString => -1
       | String _ s' => indexOf_from s' searchString (position + 1)
       end.

Definition indexOf (s searchString : string) : Z := indexOf_from s searchString 0.

Fixpoint drop_chars (n : nat) (s : string) : string :=
  match n, s with
  | O, _ => s
  | S _, EmptyString => EmptyString
  | S n', String _ s' => drop_chars n' s'
  end.

(** [s.substring(start)]: a negative [start] counts as 0, one beyond the
    end as the length. *)
Definition substring (s : string) (start : Z) : string :=
  drop_chars (Z.to_nat start) s.

Definition getPathFromUrl (url : JS.nullable_string) : JS.value :=
  match url with
  | JS.Str u =>
      if negb (JS.truthy (JS.VStr u)) then JS.VNull
      else
        let marker := BUCKET +:+ "/" in
        let idx := indexOf u marker in
        if (idx =? -1)%Z then JS.VNull
        else JS.VStr (substring u (idx + Z.of_nat (String.length marker)))
  | _ => JS.VNull
  end.

End StorageService.

(** ** src/pages/MainTabs/Home.jsx *)
Module Home.

(** An item of the fridge slice, with the fields [handleUpdateAmount] reads. *)
Record FridgeItem := {
  id : string;
  amountLeft : JS.number;
}.

Inductive action :=
| removeItem (id : string)
| updateAmountLeft (id : string) (amountLeft : JS.number).

(** What a handler does: it dispatches an action at once, or shows an alert
    whose buttons dispatch when pressed. *)
Inductive effect :=
| dispatch (a : action)
| Alert_alert (title message : string) (buttons : list (string * option action)).

Definition handleRemoveItem (id : string) : list effect :=
  [ Alert_alert "Remove Item" "Are you sure you want to remove this item?"
      [ ("Cancel", None); ("Remove", Some (removeItem id)) ] ].

Section Handlers.

(** The rounding of an exact sum to a double. *)
Variable round : Q → JS.rounded.

(** The items the selector returns. *)
Variable items : list FridgeItem.

Definition handleUpdateAmount (id0 : string) (change : JS.number) : list effect :=
  match find (λ i, String.eqb (id i) id0) items with
  | Some item =>
      let newAmount :=
        JS.Math_max (JS.Fin 0) (JS.Math_min (JS.Fin 1) (JS.add round (amountLeft item) change)) in
      if JS.strict_eq newAmount (JS.Fin 0) then handleRemoveItem id0
      else [ dispatch (updateAmountLeft id0 newAmount) ]
  | None => []
  end.

End Handlers.

End Home.

(** ** Date objects (ECMA-262, 21.4.1)

    A Date holds a time value: milliseconds since the epoch, UTC. *)
Module Date.

Definition msPerDay : Z := 86400000.

Definition Day (t : Z) : Z := t / msPerDay.

Definition TimeWithinDay (t : Z) : Z := t mod msPerDay.

Definition MakeDate (day time : Z) : Z := day * msPerDay + time.

(** TimeClip: a time value beyond 8.64e15 ms is invalid (NaN). *)
Definition TimeClip (t : Z) : option Z :=
  if (Z.abs t <=? 8640000000000000)%Z then Some t else None.

Section LocalTime.

(** The offset of local time from UTC, in milliseconds, at a time given in
    UTC ([true]) or in local time ([false]); and the day number of the
    first day of the month that a local time falls in.  Both depend on the
    host's time zone and on the calendar. *)
Variable LocalTZA : Z → bool → Z.
Variable MonthStartDay : Z → Z.

Definition LocalTime (t : Z) : Z := t + LocalTZA t true.

Definition UTC (t : Z) : Z := t - LocalTZA t false.

(** The day of the month, 1-31. *)
Definition DateFromTime (t : Z) : Z := Day t - MonthStartDay t + 1.

(** [MakeDay(YearFromTime(t), MonthFromTime(t), date)]: the day number of
    the first of [t]'s month, plus [date - 1]; it runs into the following
    months when [date] exceeds the length of the month. *)
Definition MakeDay_in_month (t date : Z) : Z := MonthStartDay t + date - 1.

Definition getDate (tv : Z) : Z := DateFromTime (LocalTime tv).

Definition setDate (tv date : Z) : option Z :=
  let t := LocalTime tv in
  TimeClip (UTC (MakeDate (MakeDay_in_month t date) (TimeWithinDay t))).

End LocalTime.

End Date.

(** ** src/pages/MainTabs/Scanner.jsx *)
Module Scanner.

(** The argument of [addFridgeItem].  [expiryDate] is the calendar date
    that [toISOString().split('T')[0]] prints, held as its UTC day number
    (days since the epoch). *)
Record FridgeItemPayload := {
  name : string;
  category : JS.value;
  expiryDate : Z;
  amountLeft : Z;
  quantity : Z;
  unit : string;
  notes : string;
  imageUrl : JS.nullable_string;
  imagePath : JS.nullable_string;
}.

(** What one call of the handler comes to, up to its [dispatch]. *)
Inductive outcome :=
| NotSignedIn
| Dispatched (payload : FridgeItemPayload)
| Failed (e : JS.Error).

Definition RangeError_date : JS.Error :=
  {| JS.name := "RangeError"; JS.message := "Invalid time value" |}.

(** [date.toISOString().split('T')[0]]: throws on an invalid date. *)
Definition toISOString_date (tv : option Z) : JS.completion Z :=
  match tv with
  | Some t => JS.Normal (Date.Day t)
  | None => JS.Throw RangeError_date
  end.

Section Handler.

Variable LocalTZA : Z → bool → Z.
Variable MonthStartDay : Z → Z.

(** The state of the screen, and the outcome of [uploadItemImage]: the
    public URL and the storage path, or the error it throws. *)
Variable isAuthenticated : bool.
Variable capturedBase64 : JS.nullable_string.
Variable uploadItemImage : string → JS.completion (string * string).

(** [handleAddToFridge item]; [today] is the time value of [new Date()]. *)
Definition handleAddToFridge (item : InventoryRecord.t) (today : Z) : outcome :=
  if negb isAuthenticated then NotSignedIn
  else
    let attempt :=
      JS.bind
        (match capturedBase64 with
         | JS.Str b =>
             if JS.truthy (JS.VStr b)
             then JS.bind (uploadItemImage b)
                    (λ upload, JS.Normal (JS.Str (fst upload), JS.Str (snd upload)))
             else JS.Normal (JS.Absent, JS.Absent)
         | _ => JS.Normal (JS.Absent, JS.Absent)
         end)
        (λ image,
           let expiryDate :=
             Date.setDate LocalTZA MonthStartDay today
               (Date.getDate LocalTZA MonthStartDay today + 7) in
           JS.bind (toISOString_date expiryDate) (λ day,
             JS.Normal
               {| name := InventoryRecord.name item;
                  category := InventoryRecord.category item;
                  expiryDate := day;
                  amountLeft := 100;
                  quantity := 1;
                  unit := "item";
                  notes := if JS.truthy (InventoryRecord.ocrText item)
                           then "OCR: " +:+ JS.ToString (InventoryRecord.ocrText item)
                           else "";
                  imageUrl := fst image;
                  imagePath := snd image |})) in
    match attempt with
    | JS.Normal payload => Dispatched payload
    | JS.Throw e => Failed e
    end.

End Handler.

End Scanner.

(** ** Notions the specification is stated with *)
Module Spec.

(** The category enum as the specification lists it, and as the
    application spells it. *)
Definition spec_categories : list JS.value :=
  JS.VStr <$> [ "fruit"; "vegetable"; "packaged"; "other" ].

Definition app_categories : list JS.value :=
  JS.VStr <$> [ "fruits"; "vegetables"; "packaged"; "other" ].

(** A confidence within [0, 1]. *)
Definition in_range (c : JS.number) : bool :=
  JS.le (JS.Fin 0) c && JS.le c (JS.Fin 1).

(** A record passes validation when its name is not empty and its
    confidence is within range. *)
Definition valid (r : InventoryRecord.t) : bool :=
  negb (String.eqb (InventoryRecord.name r) "") && in_range (InventoryRecord.confidence r).

(** A detected region yields a valid record under the same conditions. *)
Definition yields_valid (item : DetectedItem.t) : bool :=
  negb (String.eqb (DetectedItem.label item) "") && in_range (DetectedItem.confidence item).

(** An amount within the half-open interval (0, 1]. *)
Definition in_unit_interval (x : JS.number) : Prop :=
  match x with
  | JS.Fin q => (0 < q ∧ q <= 1)%Q
  | _ => False
  end.

Definition is_finite (x : JS.number) : Prop :=
  match x with
  | JS.Fin _ => True
  | _ => False
  end.

(** [s] occurs in [t]. *)
Definition contains (t s : string) : Prop := ∃ a b, t = a +:+ s +:+ b.

(** The text after the last ["-"] of a string (the whole string when it
    has none), read left to right with the segment so far in [acc]. *)
Fixpoint last_segment_from (s acc : string) : string :=
  match s with
  | EmptyString => acc
  | String c s' =>
      if Ascii.eqb c "-" then last_segment_from s' ""
      else last_segment_from s' (acc +:+ String c "")
  end.

Definition last_segment (s : string) : string := last_segment_from s "".

(** The record assembled from [item] at position [index], when the clock
    has been read [tick] times before. *)
Definition record_at (now : nat → Z) (tick index : nat) (item : DetectedItem.t)
  : InventoryRecord.t :=
  {| InventoryRecord.id :=
       "detected-" +:+ JS.Z_to_string (now tick) +:+ "-" +:+ JS.nat_to_string index;
     InventoryRecord.name := DetectedItem.label item;
     InventoryRecord.category := DetectionService.mapCategory (DetectedItem.category item);
     InventoryRecord.confidence := DetectedItem.confidence item;
     InventoryRecord.ocrText := JS.or (JS.to_value (DetectedItem.extra item)) JS.VNull;
     InventoryRecord.detectedAt := now (S tick) |}.

End Spec.

(** ** Sample inputs *)
Module Examples.

(** The two items of the response documented in backend/README.md. *)
Definition apple : DetectedItem.t :=
  {| DetectedItem.category := "fruit"; DetectedItem.label := "apple";
     DetectedItem.confidence := JS.Fin (91 # 100); DetectedItem.extra := JS.Null |}.

Definition milk : DetectedItem.t :=
  {| DetectedItem.category := "packaged"; DetectedItem.label := "Milk Packet";
     DetectedItem.confidence := JS.Fin (85 # 100); DetectedItem.extra := JS.Str "AMUL MILK" |}.

(** A region whose label is empty. *)
Definition nameless : DetectedItem.t :=
  {| DetectedItem.category := "vegetable"; DetectedItem.label := "";
     DetectedItem.confidence := JS.Fin (70 # 100); DetectedItem.extra := JS.Str "" |}.

(** A region whose category is a key the table does not have. *)
Definition odd : DetectedItem.t :=
  {| DetectedItem.category := "constructor"; DetectedItem.label := "jar";
     DetectedItem.confidence := JS.Fin (55 # 100); DetectedItem.extra := JS.Absent |}.

Definition readme_response : DetectionResponse := {| detected_items := [ apple; milk ] |}.

Definition bad_batch : DetectionResponse := {| detected_items := [ apple; nameless; milk ] |}.

Definition odd_response : DetectionResponse := {| detected_items := [ odd ] |}.

(** A clock that advances by one millisecond per reading, and one that
    stands still. *)
Definition ticking (k : nat) : Z := 1767225600000 + Z.of_nat k.

Definition frozen (k : nat) : Z := 1767225600000.

End Examples.

(** ** Sample fridge contents *)
Module HomeExamples.

Definition yoghurt : Home.FridgeItem :=
  {| Home.id := "item-1"; Home.amountLeft := JS.Fin (1 # 2) |}.

Definition butter : Home.FridgeItem :=
  {| Home.id := "item-2"; Home.amountLeft := JS.Fin (1 # 4) |}.

Definition fridge : list Home.FridgeItem := [ yoghurt; butter ].

(** Rounding that leaves a sum as it is, in lowest terms: right whenever
    the exact sum is a double, as for the quarters and halves used here. *)
Definition exact (q : Q) : JS.rounded := JS.Finite (Qred q).

End HomeExamples.

(** ** Sample outcomes of the detection request *)
Module FetchExamples.

Import DetectionService.

Definition AbortError : JS.Error :=
  {| JS.name := "AbortError"; JS.message := "Aborted" |}.

Definition SyntaxError : JS.Error :=
  {| JS.name := "SyntaxError"; JS.message := "JSON Parse error: Unexpected token: <" |}.

(** A 200 response whose body is not JSON. *)
Definition ok_unparsable : Response :=
  {| status := 200; json_body := JS.Throw SyntaxError |}.

(** A 200 response with one detected item. *)
Definition ok_detected : Response :=
  {| status := 200;
     json_body :=
       JS.Normal (JObj [ ("detected_items",
                          JArr [ JObj [ ("category", JStr "fruit"); ("label", JStr "apple");
                                        ("confidence", JNum (JS.Fin (91 # 100)));
                                        ("extra", JNull) ] ]) ]) |}.

(** Error responses: a detail string, an HTML error page, and an empty
    list of validation errors. *)
Definition server_error : Response :=
  {| status := 500; json_body := JS.Normal (JObj [ ("detail", JStr "Detection model not loaded") ]) |}.

Definition bad_gateway : Response :=
  {| status := 502; json_body := JS.Throw SyntaxError |}.

Definition empty_detail : Response :=
  {| status := 422; json_body := JS.Normal (JObj [ ("detail", JArr []) ]) |}.

(** The digits of a whole number; other numbers do not occur in these
    examples. *)
Definition print_number (n : JS.number) : string :=
  match n with
  | JS.NaN => "NaN"
  | JS.PosInf => "Infinity"
  | JS.NegInf => "-Infinity"
  | JS.Fin q => JS.Z_to_string (Qnum q / Zpos (Qden q))
  end.

End FetchExamples.

(** ** A sample host for the scanner screen *)
Module ScannerExamples.

(** India Standard Time, UTC+05:30 all year. *)
Definition IST (t : Z) (isUTC : bool) : Z := 19800000.

(** The day number of 2026-01-01, the first of the month for every time
    in January 2026. *)
Definition january_2026 (t : Z) : Z := 20454.

Definition upload_ok (base64Image : string) : JS.completion (string * string) :=
  JS.Normal
    ("https://xyz.supabase.co/storage/v1/object/public/fridge-photos/u-17/1767225600123.jpg",
     "u-17/1767225600123.jpg").

(** The first record assembled from the README's response, at midnight UTC
    of 2026-01-01, and a later moment of the same day. *)
Definition detected_apple : InventoryRecord.t :=
  Spec.record_at Examples.ticking 0 0 Examples.apple.

Definition later : Z := 1767225660000.

End ScannerExamples.

(** ** src/services/detectionService.js, the other two requests *)
Module BackendRequests.

Import DetectionService.

(** [checkBackendHealth]; [fetched] is the outcome of [await fetch(...)],
    which rejects with an error named [AbortError] when the timer of five
    seconds fires first. *)
Definition checkBackendHealth (fetched : JS.completion Response) : JS.completion json :=
  JS.try_catch
    (JS.bind fetched (λ response,
       if negb (ok response) then JS.Throw (JS.new_Error "Backend unhealthy")
       else JS.bind (json_body response) (λ data, JS.Normal data)))
    (λ error,
       if String.eqb (JS.name error) "AbortError"
       then JS.Throw (JS.new_Error "Backend not reachable")
       else JS.Throw error).

(** [addToInventory]: no timer, and a catch that rethrows. *)
Definition addToInventory (fetched : JS.completion Response) : JS.completion json :=
  JS.try_catch
    (JS.bind fetched (λ response,
       if negb (ok response)
       then JS.Throw (JS.new_Error "Failed to add items to inventory")
       else JS.bind (json_body response) (λ data, JS.Normal data)))
    (λ error, JS.Throw error).

End BackendRequests.

(** ** src/services/storageService.js, upload and delete *)
Module StorageUpload.

Import StorageService.

(** A call on [supabase.storage.from(bucket)].  The body of an upload is
    held as the base64 text that [base64Decode] turns into the buffer. *)
Inductive storage_call :=
| upload (bucket path body contentType : string) (upsert : bool)
| remove (bucket : string) (paths : list string).

(** [deleteItemImage]: nothing for a path that is absent, null or empty. *)
Definition deleteItemImage (path : JS.nullable_string) : list storage_call :=
  match path with
  | JS.Str p => if negb (JS.truthy (JS.VStr p)) then [] else [ remove BUCKET [ p ] ]
  | _ => []
  end.

(** What [supabase.auth.getUser()] resolves with: the id of the user, if
    any, and the error, if any (the client reports its failures there). *)
Record getUser_result := {
  user : option string;
  error : option JS.Error;
}.

Definition getUserId (auth : getUser_result) : JS.completion string :=
  match error auth with
  | Some e => JS.Throw e
  | None =>
      match user auth with
      | None => JS.Throw (JS.new_Error "User not authenticated")
      | Some id => JS.Normal id
      end
  end.

(** The text up to the first comma of a string, and what follows it, if
    there is a comma. *)
Fixpoint until_comma (s : string) : string * option string :=
  match s with
  | EmptyString => (EmptyString, None)
  | String c s' =>
      if Ascii.eqb c ","%char then (EmptyString, Some s')
      else let (head, rest) := until_comma s' in (String c head, rest)
  end.

(** [dataUrl.split(',')[1]]: the text between the first comma and the
    second; [undefined] when there is no comma. *)
Definition split_comma_1 (dataUrl : string) : JS.nullable_string :=
  match snd (until_comma dataUrl) with
  | Some rest => JS.Str (fst (until_comma rest))
  | None => JS.Absent
  end.

Definition TypeError_length : JS.Error :=
  {| JS.name := "TypeError"; JS.message := "Cannot read property 'length' of undefined" |}.

(** [base64Decode] reads the length of its argument first. *)
Definition base64Decode (base64 : JS.nullable_string) : JS.completion string :=
  match base64 with
  | JS.Str s => JS.Normal s
  | _ => JS.Throw TypeError_length
  end.

Section Upload.

(** The collaborators: the signed-in user, the clock, the image resizer
    (the URI of the resized file, or its failure), reading a URI back as a
    data URL through [fetch], [blob] and [FileReader] (or the failure of
    any of the three), the error of the storage upload, if any, and the
    public URL the storage client builds for a path. *)
Variable auth : getUser_result.
Variable timestamp : Z.
Variable createResizedImage : string → Z → JS.completion string.
Variable readAsDataURL : string → JS.completion string.
Variable storage_upload : string → string → option JS.Error.
Variable getPublicUrl : string → string.

(** [uploadItemImage base64Image resizeWidth]: the storage calls it makes,
    and the pair of URL and path it returns, or the error it throws. *)
Definition uploadItemImage (base64Image : string) (resizeWidth : Z)
  : list storage_call * JS.completion (string * string) :=
  match getUserId auth with
  | JS.Throw e => ([], JS.Throw e)
  | JS.Normal userId =>
      let path := userId +:+ "/" +:+ JS.Z_to_string timestamp +:+ ".jpg" in
      let imageUri := "data:image/jpeg;base64," +:+ base64Image in
      let resizedUri := JS.catch_with (createResizedImage imageUri resizeWidth) imageUri in
      let finalBase64 :=
        if negb (String.eqb resizedUri imageUri)
        then JS.catch_with
               (JS.bind (readAsDataURL resizedUri)
                  (λ dataUrl, JS.Normal (split_comma_1 dataUrl)))
               (JS.Str base64Image)
        else JS.Str base64Image in
      match base64Decode finalBase64 with
      | JS.Throw e => ([], JS.Throw e)
      | JS.Normal arrayBuffer =>
          let call := upload BUCKET path arrayBuffer "image/jpeg" false in
          match storage_upload path arrayBuffer with
          | Some e => ([ call ], JS.Throw e)
          | None => ([ call ], JS.Normal (getPublicUrl path, path))
          end
      end
  end.

End Upload.

End StorageUpload.

(** ** src/pages/MainTabs/Scanner.jsx, the rest of the screen *)
Module ScannerScreen.

(** The object literal of [getCategoryIcon]. *)
Definition icons : gmap string string :=
  {[ "fruits" := "food-apple"; "vegetables" := "carrot";
     "packaged" := "package-variant"; "other" := "food" ]}.

(** [icons[category] || 'food']; the key is the category converted to a
    string. *)
Definition getCategoryIcon (category : JS.value) : JS.value :=
  JS.or (JS.get icons (JS.ToString category)) (JS.VStr "food").

(** [prev => prev.filter(i => i.id !== item.id)], the update of the list
    of detected items after an item was added. *)
Definition removeDetected (item : InventoryRecord.t) (prev : list InventoryRecord.t)
  : list InventoryRecord.t :=
  filter (λ i, InventoryRecord.id i ≠ InventoryRecord.id item) prev.

(** The state of the screen. *)
Record State := {
  isScanning : bool;
  capturedBase64 : JS.nullable_string;
  detectedItems : list InventoryRecord.t;
  showResults : bool;
  error : JS.nullable_string;
}.

(** [Alert.alert(title, message, [{ text: 'OK' }])] *)
Record Alert := { title : string; message : string }.

(** [err.message || fallback] *)
Definition message_or (err : JS.Error) (fallback : string) : string :=
  if negb (String.eqb (JS.message err) "") then JS.message err else fallback.

(** The catch and finally blocks of [handleCapture]. *)
Definition scan_failed (st : State) (err : JS.Error) : State * list Alert :=
  ({| isScanning := false;
      capturedBase64 := capturedBase64 st;
      detectedItems := detectedItems st;
      showResults := showResults st;
      error := JS.Str (message_or err "Failed to scan. Make sure backend is running.") |},
   [ {| title := "Scan Failed";
        message :=
          message_or err "Could not detect items. Check if backend server is running." |} ]).

Section Capture.

(** The collaborators: whether the camera is mounted, the path of the
    photo taken, the file read as base64, the outcome of
    [detectFoodItems] with its data read as the backend's response, and
    the clock, read [tick] times before. *)
Variable camera_current : bool.
Variable takePhoto : JS.completion string.
Variable readFile : string → JS.completion string.
Variable detect : string → JS.completion DetectionResponse.
Variable now : nat → Z.
Variable tick : nat.

(** [handleCapture]: the state after it, and the alerts it shows. *)
Definition handleCapture (st : State) : State * list Alert :=
  if negb camera_current then (st, [])
  else
    let scanning :=
      {| isScanning := true; capturedBase64 := capturedBase64 st;
         detectedItems := detectedItems st; showResults := showResults st;
         error := JS.Null |} in
    match JS.bind takePhoto readFile with
    | JS.Throw err => scan_failed scanning err
    | JS.Normal base64Image =>
        let captured :=
          {| isScanning := true; capturedBase64 := JS.Str base64Image;
             detectedItems := detectedItems st; showResults := showResults st;
             error := JS.Null |} in
        match detect base64Image with
        | JS.Throw err => scan_failed captured err
        | JS.Normal response =>
            ({| isScanning := false; capturedBase64 := JS.Str base64Image;
                detectedItems :=
                  Clock.run (DetectionService.processDetectionResults now response) tick;
                showResults := true;
                error := JS.Null |}, [])
        end
    end.

End Capture.

Section AddAll.

Variable LocalTZA : Z → bool → Z.
Variable MonthStartDay : Z → Z.
Variable isAuthenticated : bool.
Variable capturedBase64 : JS.nullable_string.

(** The outcome of the upload made for the [i]-th item, and the time
    value [new Date()] gives while it is added. *)
Variable uploadItemImage : nat → string → JS.completion (string * string).
Variable today : nat → Z.

(** The loop of [handleAddAll] over the detected items; it is followed by
    hiding the results and navigating to the fridge, whatever the
    outcomes. *)
Definition handleAddAll (detectedItems : list InventoryRecord.t) : list Scanner.outcome :=
  imap (λ i item,
          Scanner.handleAddToFridge LocalTZA MonthStartDay isAuthenticated capturedBase64
            (uploadItemImage i) item (today i))
       detectedItems.

End AddAll.

End ScannerScreen.

(** ** More sample inputs *)
Module MoreExamples.

Import DetectionService.

Definition NetworkError : JS.Error :=
  {| JS.name := "TypeError"; JS.message := "Network request failed" |}.

(** An error response whose body is the JSON text [null]. *)
Definition null_body : Response :=
  {| status := 503; json_body := JS.Normal JNull |}.

Definition healthy : Response :=
  {| status := 200; json_body := JS.Normal (JObj [ ("status", JStr "healthy") ]) |}.

End MoreExamples.

(** ** A sample upload *)
Module UploadExamples.

Import StorageUpload.

Definition signed_in : getUser_result := {| user := Some "u-17"; error := None |}.

Definition signed_out : getUser_result := {| user := None; error := None |}.

Definition resizer_down (uri : string) (width : Z) : JS.completion string :=
  JS.Throw {| JS.name := "Error"; JS.message := "Unable to resize" |}.

Definition resizer_ok (uri : string) (width : Z) : JS.completion string :=
  JS.Normal "file:///cache/resized.jpg".

Definition read_back (uri : string) : JS.completion string :=
  JS.Normal "data:image/jpeg;base64,/9j/2wBD".

Definition storage_ok (path body : string) : option JS.Error := None.

Definition public_url (path : string) : string :=
  "https://xyz.supabase.co/storage/v1/object/public/fridge-photos/" +:+ path.

End UploadExamples.

(** ** A sample scan *)
Module CaptureExamples.

Import ScannerScreen.

Definition idle : State :=
  {| isScanning := false; capturedBase64 := JS.Null;
     detectedItems := [ ScannerExamples.detected_apple ];
     showResults := false; error := JS.Null |}.

Definition photo_path : JS.completion string := JS.Normal "/cache/photo-1.jpg".

Definition read_photo (path : string) : JS.completion string := JS.Normal "/9j/4AAQSkZJRg==".

(** The backend answers 422 with an empty list of validation errors, so
    detectFoodItems throws an Error whose message is empty. *)
Definition detect_empty_message (base64Image : string) : JS.completion DetectionResponse :=
  JS.Throw (JS.new_Error "").

Definition detect_readme (base64Image : string) : JS.completion DetectionResponse :=
  JS.Normal Examples.readme_response.

End CaptureExamples.

(** * Properties *)

#[local] Arguments String.append !s1 s2 : simpl nomatch.

(** ** Category mapping *)
Section MapCategory.

Import DetectionService.

Lemma categoryMap_lookup (k v : string) :
  categoryMap !! k = Some v ↔
  (k = "fruit" ∧ v = "fruits") ∨ (k = "vegetable" ∧ v = "vegetables")
  ∨ (k = "packaged" ∧ v = "packaged").
Proof.
  unfold categoryMap. rewrite !lookup_insert_Some, lookup_singleton_Some.
  split; intros H; intuition (subst; auto; try discriminate).
Qed.

Lemma mapCategory_known (k v : string) :
  categoryMap !! k = Some v → mapCategory k = JS.VStr v.
Proof.
  intros Hk. unfold mapCategory, JS.get. rewrite Hk.
  apply categoryMap_lookup in Hk.
  destruct Hk as [[_ ->]|[[_ ->]|[_ ->]]]; reflexivity.
Qed.

Lemma mapCategory_unknown (k : string) :
  categoryMap !! k = None → JS.inherited k = false → mapCategory k = JS.VStr "other".
Proof.
  intros Hk Hi. unfold mapCategory, JS.get. rewrite Hk, Hi. reflexivity.
Qed.

Lemma mapCategory_inherited (k : string) :
  JS.inherited k = true → mapCategory k = JS.VBuiltin k.
Proof.
  intros Hi. unfold mapCategory, JS.get.
  destruct (categoryMap !! k) as [v|] eqn:Hk.
  - apply categoryMap_lookup in Hk.
    destruct Hk as [[-> _]|[[-> _]|[-> _]]]; vm_compute in Hi; discriminate.
  - rewrite Hi. reflexivity.
Qed.

Lemma mapCategory_app_category (k : string) :
  JS.inherited k = false → mapCategory k ∈ Spec.app_categories.
Proof.
  intros Hi. destruct (categoryMap !! k) as [v|] eqn:Hk.
  - rewrite (mapCategory_known k v Hk). apply categoryMap_lookup in Hk.
    unfold Spec.app_categories.
    destruct Hk as [[_ ->]|[[_ ->]|[_ ->]]]; simpl; rewrite !elem_of_cons; auto.
  - rewrite (mapCategory_unknown k Hk Hi). unfold Spec.app_categories. simpl.
    rewrite !elem_of_cons; auto.
Qed.

End MapCategory.

(** ** Assembly of the records *)
Section Assembly.

Import DetectionService.

Variable now : nat → Z.

Lemma assemble_at (item : DetectedItem.t) (index k : nat) :
  assemble now item index k = (Spec.record_at now k index item, S (S k)).
Proof. reflexivity. Qed.

(** Mapping [assemble] over a list reads the clock twice per item and
    numbers the items consecutively. *)
Lemma map_from_assemble (l : list DetectedItem.t) (index k : nat) :
  map_from (assemble now) l index k =
  (imap (λ i item, Spec.record_at now (k + 2 * i) (index + i) item) l,
   (k + 2 * length l)%nat).
Proof.
  revert index k. induction l as [|item l IH]; intros index k; simpl.
  - unfold Clock.ret. f_equal. lia.
  - unfold Clock.bind at 1. rewrite assemble_at.
    unfold Clock.bind at 1. rewrite IH. unfold Clock.ret. f_equal.
    + f_equal.
      * f_equal; lia.
      * apply imap_ext. intros i x _. simpl. f_equal; lia.
    + lia.
Qed.

Lemma processDetectionResults_run (response : DetectionResponse) (k : nat) :
  Clock.run (processDetectionResults now response) k =
  imap (λ i item, Spec.record_at now (k + 2 * i) i item) (detected_items response).
Proof.
  unfold Clock.run, processDetectionResults. rewrite map_from_assemble. reflexivity.
Qed.

Lemma processDetectionResults_lookup (response : DetectionResponse) (k i : nat) :
  Clock.run (processDetectionResults now response) k !! i =
  Spec.record_at now (k + 2 * i) i <$> detected_items response !! i.
Proof. rewrite processDetectionResults_run, list_lookup_imap. reflexivity. Qed.

Lemma processDetectionResults_length (response : DetectionResponse) (k : nat) :
  length (Clock.run (processDetectionResults now response) k) =
  length (detected_items response).
Proof. rewrite processDetectionResults_run. apply length_imap. Qed.

Lemma valid_record_at (tick index : nat) (item : DetectedItem.t) :
  Spec.valid (Spec.record_at now tick index item) = Spec.yields_valid item.
Proof. reflexivity. Qed.

(** The records that pass validation are those of the regions that yield
    a valid record, in the same order. *)
Lemma filter_valid_imap (f : nat → nat) (l : list DetectedItem.t) (index : nat) :
  length (filter (λ r, Spec.valid r = true)
            (imap (λ i item, Spec.record_at now (f i) (index + i) item) l)) =
  length (filter (λ item, Spec.yields_valid item = true) l).
Proof.
  revert f index. induction l as [|item l IH]; intros f index; [reflexivity|].
  rewrite imap_cons, !filter_cons, valid_record_at.
  assert (IH' : length (filter (λ r, Spec.valid r = true)
            (imap ((λ i item, Spec.record_at now (f i) (index + i) item) ∘ S) l)) =
          length (filter (λ item, Spec.yields_valid item = true) l)).
  { rewrite <- (IH (f ∘ S) (S index)). f_equal. f_equal.
    apply imap_ext. intros i x _. simpl. f_equal. lia. }
  destruct (decide (Spec.yields_valid item = true)); simpl; rewrite IH'; reflexivity.
Qed.

End Assembly.

Section AssemblyClaims.

Import DetectionService.

Lemma filter_count_split {A} (f : A → bool) (l : list A) :
  (length (filter (λ x, f x = true) l) + length (filter (λ x, f x = false) l))%nat
  = length l.
Proof.
  induction l as [|x l IH]; [reflexivity|].
  rewrite !filter_cons. destruct (f x) eqn:Hx; simpl.
  - destruct (decide (true = true)); [|congruence].
    destruct (decide (true = false)); [congruence|]. simpl. lia.
  - destruct (decide (false = true)); [congruence|].
    destruct (decide (false = false)); [|congruence]. simpl. lia.
Qed.

(** C1, as stated, fails: of the three regions of [bad_batch] exactly one
    yields an invalid record (its name is empty), and the call returns
    three records, the invalid one among them, not two. *)
Lemma partial_failure_counterexample :
  let records := Clock.run (processDetectionResults Examples.ticking Examples.bad_batch) 0 in
  length (filter (λ item, Spec.yields_valid item = false)
            (detected_items Examples.bad_batch)) = 1%nat
  ∧ length records = 3%nat
  ∧ length records ≠ (length (detected_items Examples.bad_batch) - 1)%nat
  ∧ ∃ r, records !! 1%nat = Some r ∧ InventoryRecord.name r = "" ∧ Spec.valid r = false.
Proof.
  vm_compute. repeat split; try discriminate. eexists. repeat split.
Qed.

(** C1, amended: processDetectionResults validates nothing and drops
    nothing.  For every batch of N regions of which exactly one yields an
    invalid record it returns N records: the N-1 valid ones and the invalid
    one, so a bad region does not fail the others, and is itself kept. *)
Theorem partial_failure_keeps_every_record
    (now : nat → Z) (k : nat) (response : DetectionResponse) :
  length (filter (λ item, Spec.yields_valid item = false) (detected_items response)) = 1%nat →
  let records := Clock.run (processDetectionResults now response) k in
  length records = length (detected_items response)
  ∧ length (filter (λ r, Spec.valid r = true) records)
    = (length (detected_items response) - 1)%nat
  ∧ length (filter (λ r, Spec.valid r = false) records) = 1%nat.
Proof.
  intros Hone records.
  assert (Hlen : length records = length (detected_items response))
    by apply processDetectionResults_length.
  assert (Hvalid : length (filter (λ r, Spec.valid r = true) records)
                   = length (filter (λ item, Spec.yields_valid item = true)
                               (detected_items response))).
  { unfold records. rewrite processDetectionResults_run.
    apply (filter_valid_imap now (λ i, (k + 2 * i)%nat) _ 0). }
  pose proof (filter_count_split Spec.yields_valid (detected_items response)) as Hitems.
  pose proof (filter_count_split Spec.valid records) as Hrecords.
  repeat split; lia.
Qed.

Lemma partial_failure_keeps_every_record_witness :
  length (filter (λ item, Spec.yields_valid item = false)
            (detected_items Examples.bad_batch)) = 1%nat
  ∧ length (filter (λ r, Spec.valid r = true)
              (Clock.run (processDetectionResults Examples.ticking Examples.bad_batch) 0))
    = 2%nat.
Proof.
  split; [reflexivity|].
  apply (partial_failure_keeps_every_record Examples.ticking 0 Examples.bad_batch).
  reflexivity.
Defined.

(** C2, as stated, fails: the README's apple, of backend category
    [fruit], is given the category [fruits], which is not one of
    fruit, vegetable, packaged, other. *)
Lemma category_enum_counterexample :
  ∃ r, Clock.run (processDetectionResults Examples.ticking Examples.readme_response) 0
         !! 0%nat = Some r
       ∧ InventoryRecord.category r = JS.VStr "fruits"
       ∧ InventoryRecord.category r ∉ Spec.spec_categories.
Proof.
  eexists. split; [reflexivity|]. split; [reflexivity|].
  simpl. unfold Spec.spec_categories. simpl.
  rewrite !elem_of_cons, elem_of_nil. intuition discriminate.
Qed.

(** C2, amended: for every detected item whose backend category is not the
    name of a property inherited from Object.prototype, the category of
    the resulting record is one of fruits, vegetables, packaged, other. *)
Theorem category_in_app_enum
    (now : nat → Z) (k : nat) (response : DetectionResponse)
    (i : nat) (item : DetectedItem.t) :
  detected_items response !! i = Some item →
  JS.inherited (DetectedItem.category item) = false →
  ∃ r, Clock.run (processDetectionResults now response) k !! i = Some r
       ∧ InventoryRecord.category r ∈ Spec.app_categories.
Proof.
  intros Hi Hcat. rewrite processDetectionResults_lookup, Hi. simpl.
  eexists. split; [reflexivity|]. simpl. apply mapCategory_app_category, Hcat.
Qed.

Lemma category_in_app_enum_witness :
  ∃ r, Clock.run (processDetectionResults Examples.ticking Examples.readme_response) 0
         !! 1%nat = Some r
       ∧ InventoryRecord.category r ∈ Spec.app_categories.
Proof.
  apply (category_in_app_enum Examples.ticking 0 Examples.readme_response 1 Examples.milk);
    reflexivity.
Defined.

(** C3, at the failing input: "constructor" is not a key of the table,
    and mapCategory returns the constructor function inherited from
    Object.prototype for it, not the string other; the record assembled
    from such an item carries that function as its category. *)
Theorem mapCategory_inherited_key :
  categoryMap !! "constructor" = None
  ∧ mapCategory "constructor" = JS.VBuiltin "constructor"
  ∧ mapCategory "constructor" ≠ JS.VStr "other"
  ∧ InventoryRecord.category <$>
      Clock.run (processDetectionResults Examples.ticking Examples.odd_response) 0
    = [ JS.VBuiltin "constructor" ].
Proof. repeat split. discriminate. Qed.

(** C4: processDetectionResults returns one record per detected item, in
    detection order; the i-th record has the label of the i-th item as its
    name, and its confidence, unchanged. *)
Theorem records_follow_detection_order
    (now : nat → Z) (k : nat) (response : DetectionResponse) :
  let records := Clock.run (processDetectionResults now response) k in
  length records = length (detected_items response)
  ∧ ∀ i : nat,
      InventoryRecord.name <$> records !! i
      = DetectedItem.label <$> detected_items response !! i
      ∧ InventoryRecord.confidence <$> records !! i
        = DetectedItem.confidence <$> detected_items response !! i.
Proof.
  intros records. split; [apply processDetectionResults_length|].
  intros i. unfold records. rewrite processDetectionResults_lookup.
  destruct (detected_items response !! i); split; reflexivity.
Qed.

(** C8: the ocrText of an assembled record is null or a non-empty string,
    never the empty string; an absent, null or empty extra field becomes
    null, and any other text is kept. *)
Theorem ocrText_null_or_nonempty
    (now : nat → Z) (k : nat) (response : DetectionResponse)
    (i : nat) (item : DetectedItem.t) :
  detected_items response !! i = Some item →
  ∃ r, Clock.run (processDetectionResults now response) k !! i = Some r
       ∧ (InventoryRecord.ocrText r = JS.VNull
          ∨ ∃ s, s ≠ "" ∧ DetectedItem.extra item = JS.Str s
                 ∧ InventoryRecord.ocrText r = JS.VStr s)
       ∧ InventoryRecord.ocrText r ≠ JS.VStr ""
       ∧ (DetectedItem.extra item = JS.Absent ∨ DetectedItem.extra item = JS.Null
          ∨ DetectedItem.extra item = JS.Str "" → InventoryRecord.ocrText r = JS.VNull).
Proof.
  intros Hi. rewrite processDetectionResults_lookup, Hi. simpl.
  eexists. split; [reflexivity|]. simpl.
  destruct (DetectedItem.extra item) as [| |s]; simpl.
  - repeat split; auto; discriminate.
  - repeat split; auto; discriminate.
  - unfold JS.or. simpl. destruct (String.eqb_spec s "") as [->|Hs]; simpl.
    + repeat split; auto; discriminate.
    + split; [right; exists s; auto|]. split; [congruence|].
      intros [H|[H|H]]; congruence.
Qed.

Lemma ocrText_null_or_nonempty_witness :
  ∃ r, Clock.run (processDetectionResults Examples.ticking Examples.bad_batch) 0
         !! 1%nat = Some r
       ∧ InventoryRecord.ocrText r = JS.VNull.
Proof.
  destruct (ocrText_null_or_nonempty Examples.ticking 0 Examples.bad_batch 1
              Examples.nameless eq_refl) as (r & Hr & _ & _ & Hnull).
  exists r. split; [exact Hr|]. apply Hnull. right. right. reflexivity.
Defined.

End AssemblyClaims.

(** ** Strings *)
Module StringFacts.

Lemma app_assoc (a b c : string) : (a +:+ b) +:+ c = a +:+ (b +:+ c).
Proof. induction a as [|x a IH]; simpl; [reflexivity|]. rewrite IH. reflexivity. Qed.

Lemma app_nil_r (a : string) : a +:+ "" = a.
Proof. induction a as [|x a IH]; simpl; [reflexivity|]. rewrite IH. reflexivity. Qed.

Lemma length_app (a b : string) :
  String.length (a +:+ b) = (String.length a + String.length b)%nat.
Proof. induction a as [|x a IH]; simpl; [reflexivity|]. rewrite IH. reflexivity. Qed.

Lemma last_segment_from_app (a s acc : string) :
  Spec.last_segment_from (a +:+ s) acc
  = Spec.last_segment_from s (Spec.last_segment_from a acc).
Proof.
  revert acc. induction a as [|c a IH]; intros acc; simpl; [reflexivity|].
  destruct (Ascii.eqb c "-"); apply IH.
Qed.

(** The decimal digits of a number contain no dash, so they extend the
    segment read so far. *)
Lemma last_segment_from_uint (d : Decimal.uint) (acc : string) :
  Spec.last_segment_from (NilEmpty.string_of_uint d) acc
  = acc +:+ NilEmpty.string_of_uint d.
Proof.
  revert acc.
  induction d as [|d IH|d IH|d IH|d IH|d IH|d IH|d IH|d IH|d IH|d IH];
    intros acc; simpl; [symmetry; apply app_nil_r|..];
    rewrite IH, app_assoc; reflexivity.
Qed.

Lemma last_segment_id (stamp : string) (index : nat) :
  Spec.last_segment ("detected-" +:+ stamp +:+ "-" +:+ JS.nat_to_string index)
  = JS.nat_to_string index.
Proof.
  unfold Spec.last_segment. rewrite !last_segment_from_app. simpl.
  unfold JS.nat_to_string. apply last_segment_from_uint.
Qed.

Lemma last_segment_record_id (now : nat → Z) (tick index : nat) (item : DetectedItem.t) :
  Spec.last_segment (InventoryRecord.id (Spec.record_at now tick index item))
  = JS.nat_to_string index.
Proof. apply last_segment_id. Qed.

Lemma nat_to_string_inj : Inj (=) (=) JS.nat_to_string.
Proof.
  intros n m H. unfold JS.nat_to_string in H.
  apply DecimalNat.Unsigned.to_uint_inj.
  assert (Some (Nat.to_uint n) = Some (Nat.to_uint m)) as [= E]; [|exact E].
  rewrite <- !NilEmpty.usu. rewrite H. reflexivity.
Qed.

End StringFacts.

Section Identifiers.

Import DetectionService.

(** C5: within one call of processDetectionResults the ids of the
    returned records are pairwise distinct, whatever the clock reads at any
    of its readings: an id ends in the decimal index of its record. *)
Theorem ids_pairwise_distinct
    (now : nat → Z) (k : nat) (response : DetectionResponse) :
  NoDup (InventoryRecord.id <$> Clock.run (processDetectionResults now response) k).
Proof.
  apply (NoDup_fmap_1 Spec.last_segment).
  assert (E : Spec.last_segment <$>
                (InventoryRecord.id <$> Clock.run (processDetectionResults now response) k)
              = JS.nat_to_string <$> seq 0 (length (detected_items response))).
  { apply list_eq. intros i.
    rewrite !list_lookup_fmap, processDetectionResults_lookup.
    destruct (detected_items response !! i) as [item|] eqn:Hi;
      cbn [fmap option_fmap option_map].
    - rewrite StringFacts.last_segment_record_id.
      rewrite lookup_seq_lt by (eapply lookup_lt_Some; exact Hi). reflexivity.
    - rewrite lookup_seq_ge by (apply lookup_ge_None; exact Hi). reflexivity. }
  rewrite E. pose proof StringFacts.nat_to_string_inj as Hinj.
  apply NoDup_fmap_2; [exact Hinj|apply NoDup_seq].
Qed.

End Identifiers.

(** With a clock that stands still the ids still differ by their index. *)
Example ids_frozen_clock :
  InventoryRecord.id <$>
    Clock.run (DetectionService.processDetectionResults Examples.frozen Examples.bad_batch) 0
  = [ "detected-1767225600000-0"; "detected-1767225600000-1"; "detected-1767225600000-2" ].
Proof. reflexivity. Qed.

(** ** Storage paths *)
Section StoragePaths.

Import StorageService.

Local Abbreviation marker := (BUCKET +:+ "/").

Lemma prefix_true_iff (m s : string) :
  String.prefix m s = true ↔ ∃ r, s = m +:+ r.
Proof.
  revert s. induction m as [|c m IH]; intros s.
  - destruct s; simpl; split; eauto.
  - destruct s as [|d s]; simpl.
    + split; [discriminate|]. intros [r Hr]. discriminate.
    + destruct (ascii_dec c d) as [->|Hcd].
      * rewrite IH. split; intros [r Hr]; exists r; congruence.
      * split; [discriminate|]. intros [r Hr]. congruence.
Qed.

Lemma contains_prefix (s m : string) :
  String.prefix m s = true → Spec.contains s m.
Proof. intros [r Hr]%prefix_true_iff. exists "", r. exact Hr. Qed.

Lemma contains_tail (c : ascii) (s m : string) :
  Spec.contains s m → Spec.contains (String c s) m.
Proof. intros (a & b & ->). exists (String c a), b. reflexivity. Qed.

Lemma contains_cons_inv (c : ascii) (s m : string) :
  Spec.contains (String c s) m → String.prefix m (String c s) = true ∨ Spec.contains s m.
Proof.
  intros (a & b & H). destruct a as [|d a].
  - left. apply prefix_true_iff. exists b. exact H.
  - right. exists a, b. simpl in H. congruence.
Qed.

(** [indexOf] finds nothing exactly when there is no occurrence ... *)
Lemma indexOf_from_none (s m : string) (pos : Z) :
  ¬ Spec.contains s m → indexOf_from s m pos = -1.
Proof.
  revert pos. induction s as [|c s IH]; intros pos Hno.
  - cbn [indexOf_from]. destruct (String.prefix m "") eqn:Hp; [|reflexivity].
    destruct Hno. apply contains_prefix, Hp.
  - cbn [indexOf_from]. destruct (String.prefix m (String c s)) eqn:Hp.
    + destruct Hno. apply contains_prefix, Hp.
    + apply IH. intros Hc. apply Hno, contains_tail, Hc.
Qed.

Lemma indexOf_from_found (s m : string) (pos : Z) :
  Spec.contains s m → 0 <= pos → 0 <= indexOf_from s m pos.
Proof.
  revert pos. induction s as [|c s IH]; intros pos Hc Hpos.
  - destruct Hc as (a & b & H). destruct a; [|discriminate].
    cbn [indexOf_from]. replace (String.prefix m "") with true; [lia|].
    symmetry. apply prefix_true_iff. exists b. exact H.
  - cbn [indexOf_from]. destruct (String.prefix m (String c s)) eqn:Hp; [lia|].
    apply contains_cons_inv in Hc as [Hc|Hc]; [congruence|].
    apply IH; [exact Hc|lia].
Qed.

(** ... and otherwise returns the position of the first one. *)
Lemma indexOf_from_first (pre rest m : string) (pos : Z) :
  (∀ a b, pre = a +:+ b → b ≠ "" → String.prefix m (b +:+ rest) = false) →
  String.prefix m rest = true →
  indexOf_from (pre +:+ rest) m pos = pos + Z.of_nat (String.length pre).
Proof.
  revert pos. induction pre as [|c pre IH]; intros pos Hno Hrest.
  - cbn [String.append]. destruct rest; cbn [indexOf_from String.length]; rewrite Hrest; lia.
  - cbn [String.append indexOf_from String.length].
    pose proof (Hno "" (String c pre) eq_refl ltac:(discriminate)) as Hhere.
    cbn [String.append] in Hhere. rewrite Hhere.
    rewrite IH; [lia| |exact Hrest].
    intros a b -> Hb. apply (Hno (String c a) b); [reflexivity|exact Hb].
Qed.

Lemma drop_chars_app (a b : string) :
  drop_chars (String.length a) (a +:+ b) = b.
Proof. induction a as [|c a IH]; simpl; [destruct b; reflexivity|exact IH]. Qed.

(** No occurrence of the marker can begin in the text before another
    occurrence and end inside that one: an occurrence begins with an f,
    and the marker has no other. *)
Lemma marker_no_overlap_eq (b rest r : string) :
  b ≠ "" →
  b +:+ marker +:+ rest = marker +:+ r →
  ∃ r', b = marker +:+ r'.
Proof.
  intros Hb H. unfold marker, BUCKET in *.
  destruct b as [|c b]; [congruence|clear Hb].
  do 13 (simpl in H; injection H as -> H;
         destruct b as [|c b]; [simpl in H; discriminate H|]).
  simpl in H. injection H as -> H. exists b. reflexivity.
Qed.

Lemma marker_no_overlap (b rest : string) :
  b ≠ "" →
  String.prefix marker (b +:+ marker +:+ rest) = true →
  String.prefix marker b = true.
Proof.
  intros Hb [r Hr]%prefix_true_iff. apply prefix_true_iff.
  eapply marker_no_overlap_eq; eauto.
Qed.

Lemma indexOf_public_url (pre path : string) :
  ¬ Spec.contains pre marker →
  indexOf (pre +:+ marker +:+ path) marker = Z.of_nat (String.length pre).
Proof.
  intros Hno. unfold indexOf. rewrite indexOf_from_first; [lia| |].
  - intros a b -> Hb.
    destruct (String.prefix marker (b +:+ marker +:+ path)) eqn:Hp; [|reflexivity].
    destruct Hno. apply marker_no_overlap in Hp; [|exact Hb].
    apply prefix_true_iff in Hp as [r ->]. exists a, r. reflexivity.
  - apply prefix_true_iff. exists path. reflexivity.
Qed.

Lemma not_contains_by_indexOf (s m : string) :
  indexOf s m = -1 → ¬ Spec.contains s m.
Proof.
  intros Hidx Hc. pose proof (indexOf_from_found s m 0 Hc ltac:(lia)) as Hpos.
  unfold indexOf in Hidx. lia.
Qed.

Lemma truthy_app_marker (pre rest : string) :
  JS.truthy (JS.VStr (pre +:+ marker +:+ rest)) = true.
Proof. destruct pre; reflexivity. Qed.

(** C10: getPathFromUrl undoes the construction of a public URL: for
    every URL prefix + "fridge-photos/" + path whose prefix does not
    contain "fridge-photos/" it returns path; for null, for undefined and
    for every URL that does not contain "fridge-photos/" it returns null. *)
Theorem getPathFromUrl_left_inverse :
  (∀ pre path : string,
      ¬ Spec.contains pre (BUCKET +:+ "/") →
      getPathFromUrl (JS.Str (pre +:+ BUCKET +:+ "/" +:+ path)) = JS.VStr path)
  ∧ getPathFromUrl JS.Null = JS.VNull
  ∧ getPathFromUrl JS.Absent = JS.VNull
  ∧ (∀ url : string,
        ¬ Spec.contains url (BUCKET +:+ "/") → getPathFromUrl (JS.Str url) = JS.VNull).
Proof.
  split; [|split; [reflexivity|split; [reflexivity|]]].
  - intros pre path Hno.
    change (pre +:+ BUCKET +:+ "/" +:+ path) with (pre +:+ marker +:+ path).
    unfold getPathFromUrl. rewrite truthy_app_marker. cbn [negb].
    rewrite (indexOf_public_url pre path Hno).
    destruct (Z.eqb_spec (Z.of_nat (String.length pre)) (-1)) as [E|_]; [lia|].
    f_equal. unfold substring.
    rewrite <- Nat2Z.inj_add, Nat2Z.id, <- StringFacts.length_app.
    rewrite <- (StringFacts.app_assoc pre marker path).
    apply drop_chars_app.
  - intros url Hno. unfold getPathFromUrl.
    destruct (JS.truthy (JS.VStr url)); [|reflexivity]. cbn [negb].
    unfold indexOf. rewrite (indexOf_from_none url marker 0 Hno). reflexivity.
Qed.

Lemma getPathFromUrl_left_inverse_witness :
  ¬ Spec.contains "https://xyz.supabase.co/storage/v1/object/public/" (BUCKET +:+ "/")
  ∧ getPathFromUrl
      (JS.Str "https://xyz.supabase.co/storage/v1/object/public/fridge-photos/u-17/1767225600000.jpg")
    = JS.VStr "u-17/1767225600000.jpg".
Proof.
  assert (Hno : ¬ Spec.contains "https://xyz.supabase.co/storage/v1/object/public/"
                    (BUCKET +:+ "/"))
    by (apply not_contains_by_indexOf; reflexivity).
  split; [exact Hno|].
  exact (proj1 getPathFromUrl_left_inverse
           "https://xyz.supabase.co/storage/v1/object/public/" "u-17/1767225600000.jpg" Hno).
Defined.

End StoragePaths.

(** A bucket name inside the path itself is left alone: the first
    occurrence of the marker is the one that counts. *)
Example getPathFromUrl_nested :
  StorageService.getPathFromUrl (JS.Str "https://h/public/fridge-photos/a/fridge-photos/b.jpg")
  = JS.VStr "a/fridge-photos/b.jpg"
  ∧ StorageService.getPathFromUrl (JS.Str "https://h/public/other-bucket/a.jpg") = JS.VNull
  ∧ StorageService.getPathFromUrl (JS.Str "") = JS.VNull.
Proof. repeat split. Qed.

(** ** Amounts *)
Section Amounts.

Import Home.

(** Clamping to [0, 1] gives NaN for NaN and a number within [0, 1] for
    anything else. *)
Lemma clamp_cases (s : JS.number) :
  let r := JS.Math_max (JS.Fin 0) (JS.Math_min (JS.Fin 1) s) in
  (s = JS.NaN ∧ r = JS.NaN) ∨ (∃ q, r = JS.Fin q ∧ (0 <= q ∧ q <= 1)%Q).
Proof.
  destruct s as [| |q|]; simpl.
  - left. split; reflexivity.
  - right. exists 0%Q. split; [reflexivity|]. split; [apply Qle_refl|discriminate].
  - right. destruct (Qle_bool 1 q) eqn:H1; simpl.
    + exists 1%Q. split; [reflexivity|]. split; [discriminate|apply Qle_refl].
    + destruct (Qle_bool q 0) eqn:H0; simpl.
      * exists 0%Q. split; [reflexivity|]. split; [apply Qle_refl|discriminate].
      * exists q. split; [reflexivity|]. split.
        -- apply Qlt_le_weak, Qnot_le_lt. rewrite <- Qle_bool_iff. congruence.
        -- apply Qlt_le_weak, Qnot_le_lt. rewrite <- Qle_bool_iff. congruence.
  - right. exists 1%Q. split; [reflexivity|]. split; [discriminate|apply Qle_refl].
Qed.

Lemma add_finite (round : Q → JS.rounded) (x y : JS.number) :
  Spec.is_finite x → Spec.is_finite y → JS.add round x y ≠ JS.NaN.
Proof.
  destruct x, y; simpl; try tauto. intros _ _.
  destruct (round _) as [r|[]]; discriminate.
Qed.

Lemma find_elem_of {A} (f : A → bool) (l : list A) (x : A) :
  find f l = Some x → x ∈ l.
Proof.
  induction l as [|y l IH]; simpl; [discriminate|].
  destruct (f y); [intros [= ->]; left|intros H; right; auto].
Qed.

(** C9: handleUpdateAmount dispatches updateAmountLeft only for the item
    it was called for and only with an amount that is not negative, not
    zero and not above 1; whenever the new amount amountLeft + change is a
    number, as it is for every finite amount and change, the dispatched
    amount lies in (0, 1]. *)
Theorem update_amount_within_unit_interval
    (round : Q → JS.rounded) (items : list FridgeItem)
    (id0 : string) (change : JS.number) (id1 : string) (amount : JS.number) :
  dispatch (updateAmountLeft id1 amount) ∈ handleUpdateAmount round items id0 change →
  id1 = id0
  ∧ (JS.lt amount (JS.Fin 0) = false ∧ JS.strict_eq amount (JS.Fin 0) = false
     ∧ JS.lt (JS.Fin 1) amount = false)
  ∧ ((∀ item, item ∈ items → JS.add round (amountLeft item) change ≠ JS.NaN) →
     Spec.in_unit_interval amount).
Proof.
  unfold handleUpdateAmount.
  destruct (find _ items) as [item|] eqn:Hfind; [|intros H; inversion H].
  apply find_elem_of in Hfind. cbv zeta.
  pose proof (clamp_cases (JS.add round (amountLeft item) change)) as Hclamp.
  cbv zeta in Hclamp.
  set (newAmount := JS.Math_max _ _) in *.
  destruct (JS.strict_eq newAmount (JS.Fin 0)) eqn:Hzero.
  - unfold handleRemoveItem. rewrite list_elem_of_singleton. discriminate.
  - rewrite list_elem_of_singleton. intros [= -> ->]. split; [reflexivity|].
    destruct Hclamp as [[Hnan Hr]|(q & Hr & Hq0 & Hq1)]; rewrite Hr in Hzero |- *.
    + split; [repeat split|]. intros Hnum. destruct (Hnum item Hfind Hnan).
    + split; [split; [|split; [exact Hzero|]]|].
      * simpl. apply negb_false_iff, Qle_bool_iff, Hq0.
      * simpl. apply negb_false_iff, Qle_bool_iff, Hq1.
      * intros _. simpl. split; [|exact Hq1].
        simpl in Hzero. apply Qeq_bool_neq in Hzero.
        apply Qle_lteq in Hq0 as [Hlt|Heq]; [exact Hlt|].
        destruct Hzero. symmetry. exact Heq.
Qed.

Lemma update_amount_within_unit_interval_witness :
  dispatch (updateAmountLeft "item-1" (JS.Fin (1 # 4)))
    ∈ handleUpdateAmount HomeExamples.exact HomeExamples.fridge "item-1" (JS.Fin (- 1 # 4))
  ∧ Spec.in_unit_interval (JS.Fin (1 # 4)).
Proof.
  assert (H : dispatch (updateAmountLeft "item-1" (JS.Fin (1 # 4)))
                ∈ handleUpdateAmount HomeExamples.exact HomeExamples.fridge "item-1"
                    (JS.Fin (- 1 # 4))).
  { vm_compute. left. }
  split; [exact H|].
  apply (update_amount_within_unit_interval _ _ _ _ _ _ H).
  intros item Hin. apply add_finite; [|exact I].
  revert item Hin. apply Forall_forall. repeat constructor.
Defined.

End Amounts.

(** Using up the last quarter asks for the removal instead of storing 0; an
    overshoot stops at 1; an unknown id does nothing.  A change that is not
    a number is passed on as it is. *)
Example handleUpdateAmount_cases :
  Home.handleUpdateAmount HomeExamples.exact HomeExamples.fridge "item-2" (JS.Fin (- 1 # 4))
  = Home.handleRemoveItem "item-2"
  ∧ Home.handleUpdateAmount HomeExamples.exact HomeExamples.fridge "item-1" (JS.Fin (3 # 4))
    = [ Home.dispatch (Home.updateAmountLeft "item-1" (JS.Fin 1)) ]
  ∧ Home.handleUpdateAmount HomeExamples.exact HomeExamples.fridge "item-9" (JS.Fin (1 # 4))
    = []
  ∧ Home.handleUpdateAmount HomeExamples.exact HomeExamples.fridge "item-1" JS.NaN
    = [ Home.dispatch (Home.updateAmountLeft "item-1" JS.NaN) ].
Proof. repeat split. Qed.

(** ** The detection request *)
Section DetectionRequest.

Import DetectionService.

Variable Number_toString : JS.number → string.

Local Abbreviation detect := (detectFoodItems Number_toString).

(** The body of an error response as the handler sees it. *)
Local Abbreviation errorData r := (JS.catch_with (json_body r) (JObj [])).

Lemma detect_returns_iff (fetched : JS.completion Response) (v : json) :
  detect fetched = JS.Normal v ↔
  ∃ r, fetched = JS.Normal r ∧ ok r = true ∧ json_body r = JS.Normal v.
Proof.
  unfold detectFoodItems. destruct fetched as [r|e]; simpl.
  - destruct (ok r) eqn:Hok; simpl.
    + destruct (json_body r) as [data|e] eqn:Hbody; simpl.
      * split; [intros [= ->]; eauto|]. intros (r' & [= <-] & _ & H). congruence.
      * split.
        -- destruct (String.eqb _ _); discriminate.
        -- intros (r' & [= <-] & _ & H). congruence.
    + split.
      * destruct (get_detail _) as [detail|e]; simpl;
          [discriminate|destruct (String.eqb _ _); discriminate].
      * intros (r' & [= <-] & H & _). congruence.
  - split; [destruct (String.eqb _ _); discriminate|].
    intros (r & H & _). discriminate.
Qed.

Lemma detect_timeout (e : JS.Error) :
  JS.name e = "AbortError" →
  detect (JS.Throw e) = JS.Throw (JS.new_Error timeout_message).
Proof. intros He. unfold detectFoodItems. simpl. rewrite He. reflexivity. Qed.

Lemma detect_not_ok (r : Response) :
  ok r = false →
  detect (JS.Normal r) =
  match get_detail (errorData r) with
  | JS.Normal detail =>
      JS.Throw (JS.new_Error
        (if json_truthy detail
         then match detail with Some d => ToString Number_toString d | None => "undefined" end
         else "Detection failed: " +:+ JS.nat_to_string (status r)))
  | JS.Throw e => JS.Throw e
  end.
Proof.
  intros Hok. unfold detectFoodItems. simpl. rewrite Hok. simpl.
  destruct (get_detail _) as [detail|e] eqn:Hd; simpl; [reflexivity|].
  destruct (errorData r); try discriminate. injection Hd as <-. reflexivity.
Qed.

(** C7, amended: detectFoodItems returns the parsed response exactly when
    the HTTP response is ok and its body parses as JSON, and never returns
    a value otherwise; for every timeout it fails with an Error carrying
    the dedicated, non-empty timeout message; for every non-ok response it
    fails with an error, which carries the server's detail as its message
    when that is a non-empty string, and the non-empty status-based message
    when the body does not parse or has no truthy detail. *)
Theorem detectFoodItems_error_contract :
  (∀ fetched v,
      detect fetched = JS.Normal v ↔
      ∃ r, fetched = JS.Normal r ∧ ok r = true ∧ json_body r = JS.Normal v)
  ∧ (∀ e, JS.name e = "AbortError" →
          detect (JS.Throw e) = JS.Throw (JS.new_Error timeout_message)
          ∧ timeout_message ≠ "")
  ∧ (∀ r, ok r = false →
          ∃ e, detect (JS.Normal r) = JS.Throw e
               ∧ (∀ s, get_detail (errorData r) = JS.Normal (Some (JStr s)) → s ≠ "" →
                       e = JS.new_Error s)
               ∧ (∀ detail,
                     get_detail (errorData r) = JS.Normal detail →
                     json_truthy detail = false →
                     e = JS.new_Error ("Detection failed: " +:+ JS.nat_to_string (status r))
                     ∧ JS.message e ≠ "")).
Proof.
  split; [exact detect_returns_iff|]. split.
  - intros e He. split; [apply detect_timeout, He|discriminate].
  - intros r Hok. rewrite (detect_not_ok r Hok).
    destruct (get_detail (errorData r)) as [detail|e]; eexists; (split; [reflexivity|]).
    + split.
      * intros s [= ->] Hs. simpl. destruct (String.eqb_spec s ""); [contradiction|].
        reflexivity.
      * intros detail' [= <-] Hfalse. rewrite Hfalse. split; [reflexivity|discriminate].
    + split; [intros s H; discriminate|intros d H; discriminate].
Qed.

End DetectionRequest.

(** C7, as stated, fails: a response can be ok, with status 200, and
    detectFoodItems still fail, with the parse error of its body. *)
Lemma detect_ok_unparsable_counterexample :
  DetectionService.ok FetchExamples.ok_unparsable = true
  ∧ DetectionService.detectFoodItems FetchExamples.print_number
      (JS.Normal FetchExamples.ok_unparsable)
    = JS.Throw FetchExamples.SyntaxError
  ∧ ¬ (∀ fetched,
         (∃ v, DetectionService.detectFoodItems FetchExamples.print_number fetched
               = JS.Normal v)
         ↔ (∃ r, fetched = JS.Normal r ∧ DetectionService.ok r = true)).
Proof.
  split; [reflexivity|]. split; [reflexivity|].
  intros H. destruct (proj2 (H (JS.Normal FetchExamples.ok_unparsable))) as [v Hv].
  - exists FetchExamples.ok_unparsable. split; reflexivity.
  - discriminate Hv.
Qed.

Lemma detectFoodItems_error_contract_witness :
  DetectionService.ok FetchExamples.server_error = false
  ∧ DetectionService.detectFoodItems FetchExamples.print_number
      (JS.Normal FetchExamples.server_error)
    = JS.Throw (JS.new_Error "Detection model not loaded")
  ∧ DetectionService.detectFoodItems FetchExamples.print_number
      (JS.Throw FetchExamples.AbortError)
    = JS.Throw (JS.new_Error DetectionService.timeout_message).
Proof.
  pose proof (detectFoodItems_error_contract FetchExamples.print_number)
    as (_ & Htimeout & Hfailed).
  split; [reflexivity|]. split.
  - destruct (Hfailed FetchExamples.server_error eq_refl) as (e & He & Hdetail & _).
    rewrite He. f_equal. apply Hdetail; [reflexivity|discriminate].
  - apply (Htimeout FetchExamples.AbortError eq_refl).
Defined.

(** What the contract leaves open: a truthy detail that is not a string is
    converted to one, and an empty array converts to the empty string. *)
Example detect_messages :
  DetectionService.detectFoodItems FetchExamples.print_number (JS.Normal FetchExamples.bad_gateway)
  = JS.Throw (JS.new_Error "Detection failed: 502")
  ∧ DetectionService.detectFoodItems FetchExamples.print_number
      (JS.Normal FetchExamples.empty_detail)
    = JS.Throw (JS.new_Error "")
  ∧ DetectionService.detectFoodItems FetchExamples.print_number
      (JS.Normal FetchExamples.ok_detected)
    = DetectionService.json_body FetchExamples.ok_detected.
Proof. repeat split. Qed.

(** ** Expiry dates *)
Section ExpiryDates.

Import Scanner.

Variable LocalTZA : Z → bool → Z.
Variable MonthStartDay : Z → Z.

(** Moving the day of the month forward by [n] moves the local time
    forward by [n] days, across the end of the month too. *)
Lemma setDate_getDate_plus (tv n : Z) :
  Date.setDate LocalTZA MonthStartDay tv (Date.getDate LocalTZA MonthStartDay tv + n)
  = Date.TimeClip (Date.UTC LocalTZA (Date.LocalTime LocalTZA tv + n * Date.msPerDay)).
Proof.
  unfold Date.setDate, Date.getDate, Date.DateFromTime, Date.MakeDay_in_month, Date.MakeDate.
  f_equal. f_equal.
  set (t := Date.LocalTime LocalTZA tv).
  unfold Date.Day, Date.TimeWithinDay, Date.msPerDay.
  pose proof (Z.div_mod t 86400000 ltac:(lia)). lia.
Qed.

Lemma TimeClip_Some (t u : Z) : Date.TimeClip t = Some u → u = t.
Proof. unfold Date.TimeClip. destruct (_ <=? _)%Z; congruence. Qed.

Lemma Day_mono (t u : Z) : t <= u → Date.Day t <= Date.Day u.
Proof. intros H. unfold Date.Day, Date.msPerDay. apply Z.div_le_mono; lia. Qed.

Lemma Day_plus (t n : Z) : Date.Day (t + n * Date.msPerDay) = Date.Day t + n.
Proof. unfold Date.Day, Date.msPerDay. apply Z.div_add. lia. Qed.

(** The offsets of local time are less than a day. *)
Hypothesis LocalTZA_bound : ∀ t isUTC, Z.abs (LocalTZA t isUTC) <= Date.msPerDay.

Variable isAuthenticated : bool.
Variable capturedBase64 : JS.nullable_string.
Variable uploadItemImage : string → JS.completion (string * string).

Local Abbreviation add_to_fridge :=
  (handleAddToFridge LocalTZA MonthStartDay isAuthenticated capturedBase64 uploadItemImage).

Lemma handleAddToFridge_dispatched (item : InventoryRecord.t) (today : Z)
    (payload : FridgeItemPayload) :
  add_to_fridge item today = Dispatched payload →
  name payload = InventoryRecord.name item
  ∧ Date.Day today + 5 <= expiryDate payload.
Proof.
  unfold handleAddToFridge. destruct isAuthenticated; simpl; [|discriminate].
  rewrite setDate_getDate_plus.
  match goal with |- context [JS.bind ?c _] => destruct c as [image|e] end;
    simpl; [|discriminate].
  destruct (Date.TimeClip _) as [u|] eqn:Hclip; simpl; [|discriminate].
  intros [= <-]. simpl. split; [reflexivity|].
  apply TimeClip_Some in Hclip. subst u.
  rewrite <- Day_plus. apply Day_mono.
  unfold Date.UTC, Date.LocalTime.
  pose proof (LocalTZA_bound today true).
  pose proof (LocalTZA_bound (today + LocalTZA today true + 7 * Date.msPerDay) false).
  unfold Date.msPerDay in *. lia.
Qed.

(** C6: every record that handleAddToFridge hands to persistence for a
    detected item carries that item's label as its name, a string, and an
    expiry date no earlier than the item's detection date, given that the
    clock has not been set back since the detection and that local time is
    within a day of UTC; the date lies at least five days after the day of
    the call, so the expiry horizon is never negative. *)
Theorem expiry_not_before_detection
    (now : nat → Z) (k : nat) (response : DetectionResponse)
    (i : nat) (record : InventoryRecord.t) (today : Z) (payload : FridgeItemPayload) :
  Clock.run (DetectionService.processDetectionResults now response) k !! i = Some record →
  InventoryRecord.detectedAt record <= today →
  add_to_fridge record today = Dispatched payload →
  (∃ item, detected_items response !! i = Some item
           ∧ name payload = DetectedItem.label item)
  ∧ Date.Day (InventoryRecord.detectedAt record) <= expiryDate payload
  ∧ 0 <= expiryDate payload - Date.Day today.
Proof.
  intros Hrecord Hclock Hadd.
  apply handleAddToFridge_dispatched in Hadd as [Hname Hday].
  rewrite processDetectionResults_lookup in Hrecord.
  destruct (detected_items response !! i) as [item|]; [|discriminate].
  injection Hrecord as <-. split; [exists item; split; [reflexivity|exact Hname]|].
  pose proof (Day_mono _ _ Hclock). lia.
Qed.

End ExpiryDates.

Lemma expiry_not_before_detection_witness :
  ∃ payload,
    Scanner.handleAddToFridge ScannerExamples.IST ScannerExamples.january_2026 true
      (JS.Str "/9j/4AAQSkZJRg==") ScannerExamples.upload_ok
      ScannerExamples.detected_apple ScannerExamples.later
    = Scanner.Dispatched payload
    ∧ Scanner.expiryDate payload = 20461
    ∧ Date.Day (InventoryRecord.detectedAt ScannerExamples.detected_apple)
      <= Scanner.expiryDate payload.
Proof.
  eexists. split; [reflexivity|]. split; [reflexivity|].
  refine (proj1 (proj2 (expiry_not_before_detection
            ScannerExamples.IST ScannerExamples.january_2026 _ true
            (JS.Str "/9j/4AAQSkZJRg==") ScannerExamples.upload_ok Examples.ticking 0 Examples.readme_response 0
            ScannerExamples.detected_apple ScannerExamples.later _ eq_refl _ eq_refl))).
  - intros t isUTC. vm_compute. discriminate.
  - vm_compute. discriminate.
Defined.

(** * Further properties *)

(** ** The three requests *)
Section Requests.

Import DetectionService BackendRequests.

Variable Number_toString : JS.number → string.

(** X1: detectFoodItems never lets an error named AbortError out: it
    replaces every such error by the timeout error; every other rejection
    of fetch, such as a network failure, is rethrown as it is. *)
Theorem detectFoodItems_abort_translated :
  (∀ fetched e,
      detectFoodItems Number_toString fetched = JS.Throw e → JS.name e ≠ "AbortError")
  ∧ (∀ e, JS.name e ≠ "AbortError" →
          detectFoodItems Number_toString (JS.Throw e) = JS.Throw e).
Proof.
  split.
  - intros fetched e. unfold detectFoodItems.
    destruct (JS.bind fetched _) as [v|e0]; simpl; [discriminate|].
    destruct (String.eqb_spec (JS.name e0) "AbortError") as [_|Hne].
    + intros [= <-]. discriminate.
    + intros [= <-]. exact Hne.
  - intros e Hne. unfold detectFoodItems. simpl.
    destruct (String.eqb_spec (JS.name e) "AbortError"); [contradiction|reflexivity].
Qed.

(** X2: checkBackendHealth returns the parsed body exactly when the
    response is ok and its body parses; every non-ok response fails with
    "Backend unhealthy" whatever its body; a timeout fails with "Backend
    not reachable"; no error named AbortError gets out. *)
Theorem checkBackendHealth_contract :
  (∀ fetched v,
      checkBackendHealth fetched = JS.Normal v ↔
      ∃ r, fetched = JS.Normal r ∧ ok r = true ∧ json_body r = JS.Normal v)
  ∧ (∀ r, ok r = false →
          checkBackendHealth (JS.Normal r) = JS.Throw (JS.new_Error "Backend unhealthy"))
  ∧ (∀ e, JS.name e = "AbortError" →
          checkBackendHealth (JS.Throw e) = JS.Throw (JS.new_Error "Backend not reachable"))
  ∧ (∀ fetched e, checkBackendHealth fetched = JS.Throw e → JS.name e ≠ "AbortError").
Proof.
  repeat split.
  - unfold checkBackendHealth. destruct fetched as [r|e]; simpl.
    + destruct (ok r) eqn:Hok; simpl; [|discriminate].
      destruct (json_body r) as [data|e] eqn:Hbody; simpl.
      * intros [= ->]. eauto.
      * destruct (String.eqb _ _); discriminate.
    + destruct (String.eqb _ _); discriminate.
  - intros (r & -> & Hok & Hbody). unfold checkBackendHealth. simpl.
    rewrite Hok, Hbody. reflexivity.
  - intros r Hok. unfold checkBackendHealth. simpl. rewrite Hok. reflexivity.
  - intros e He. unfold checkBackendHealth. simpl. rewrite He. reflexivity.
  - intros fetched e. unfold checkBackendHealth.
    destruct (JS.bind fetched _) as [v|e0]; simpl; [discriminate|].
    destruct (String.eqb_spec (JS.name e0) "AbortError") as [_|Hne].
    + intros [= <-]. discriminate.
    + intros [= <-]. exact Hne.
Qed.

(** X3: addToInventory returns the parsed body exactly when the response
    is ok and its body parses; every non-ok response fails with "Failed to
    add items to inventory"; every rejection of fetch is rethrown as it
    is, an abort included: this request has no timeout of its own. *)
Theorem addToInventory_contract :
  (∀ fetched v,
      addToInventory fetched = JS.Normal v ↔
      ∃ r, fetched = JS.Normal r ∧ ok r = true ∧ json_body r = JS.Normal v)
  ∧ (∀ r, ok r = false →
          addToInventory (JS.Normal r)
          = JS.Throw (JS.new_Error "Failed to add items to inventory"))
  ∧ (∀ e, addToInventory (JS.Throw e) = JS.Throw e).
Proof.
  repeat split.
  - unfold addToInventory. destruct fetched as [r|e]; simpl; [|discriminate].
    destruct (ok r) eqn:Hok; simpl; [|discriminate].
    destruct (json_body r) as [data|e] eqn:Hbody; simpl; [|discriminate].
    intros [= ->]. eauto.
  - intros (r & -> & Hok & Hbody). unfold addToInventory. simpl.
    rewrite Hok, Hbody. reflexivity.
  - intros r Hok. unfold addToInventory. simpl. rewrite Hok. reflexivity.
Qed.

End Requests.

Lemma detectFoodItems_abort_translated_witness :
  DetectionService.detectFoodItems FetchExamples.print_number
    (JS.Throw MoreExamples.NetworkError)
  = JS.Throw MoreExamples.NetworkError
  ∧ JS.name DetectionService.TypeError_null ≠ "AbortError".
Proof.
  pose proof (detectFoodItems_abort_translated FetchExamples.print_number) as [Hout Hpass].
  split.
  - apply Hpass. discriminate.
  - apply (Hout (JS.Normal MoreExamples.null_body)). reflexivity.
Defined.

Lemma checkBackendHealth_contract_witness :
  BackendRequests.checkBackendHealth (JS.Normal MoreExamples.null_body)
  = JS.Throw (JS.new_Error "Backend unhealthy")
  ∧ BackendRequests.checkBackendHealth (JS.Throw FetchExamples.AbortError)
    = JS.Throw (JS.new_Error "Backend not reachable")
  ∧ BackendRequests.checkBackendHealth (JS.Normal MoreExamples.healthy)
    = DetectionService.json_body MoreExamples.healthy.
Proof.
  pose proof checkBackendHealth_contract as (Hret & Hbad & Habort & _).
  split; [apply Hbad; reflexivity|]. split; [apply Habort; reflexivity|].
  apply Hret. exists MoreExamples.healthy. repeat split.
Defined.

Lemma addToInventory_contract_witness :
  BackendRequests.addToInventory (JS.Normal FetchExamples.server_error)
  = JS.Throw (JS.new_Error "Failed to add items to inventory")
  ∧ BackendRequests.addToInventory (JS.Throw FetchExamples.AbortError)
    = JS.Throw FetchExamples.AbortError.
Proof.
  pose proof addToInventory_contract as (_ & Hbad & Hpass).
  split; [apply Hbad; reflexivity|apply Hpass].
Defined.

(** ** Categories and icons *)
Section CategoriesAndIcons.

Import DetectionService ScannerScreen.

Lemma inherited_keys (c : string) :
  JS.inherited c = true → c ∈ JS.Object_prototype_keys.
Proof. unfold JS.inherited. intros H. apply bool_decide_eq_true in H. exact H. Qed.

Lemma mapCategory_cases (c : string) :
  (JS.inherited c = true ∧ mapCategory c = JS.VBuiltin c)
  ∨ (JS.inherited c = false ∧ mapCategory c ∈ Spec.app_categories).
Proof.
  destruct (JS.inherited c) eqn:Hc.
  - left. split; [reflexivity|]. apply mapCategory_inherited, Hc.
  - right. split; [reflexivity|]. apply mapCategory_app_category, Hc.
Qed.

(** X4: the category mapCategory returns is never undefined, null or the
    empty string, so every assembled record has a truthy category. *)
Theorem category_always_truthy :
  (∀ c, JS.truthy (mapCategory c) = true)
  ∧ ∀ (now : nat → Z) (k : nat) (response : DetectionResponse),
      Forall (λ r, JS.truthy (InventoryRecord.category r) = true)
        (Clock.run (processDetectionResults now response) k).
Proof.
  assert (Htruthy : ∀ c, JS.truthy (mapCategory c) = true).
  { intros c. destruct (mapCategory_cases c) as [[_ ->]|[_ Hin]]; [reflexivity|].
    unfold Spec.app_categories in Hin. simpl in Hin.
    rewrite !elem_of_cons, elem_of_nil in Hin.
    destruct Hin as [->|[->|[->|[->|[]]]]]; reflexivity. }
  split; [exact Htruthy|]. intros now k response.
  rewrite processDetectionResults_run. apply Forall_forall. intros r Hr.
  apply elem_of_lookup_imap in Hr as (i & item & -> & _). apply Htruthy.
Qed.

(** X5: whatever the backend category of an item, known, unknown or the
    name of an inherited property, the icon chosen for its record is one
    of the four icon names; the three known categories get their own
    icon and every unknown one gets the food icon. *)
Theorem icon_of_every_category (c : string) :
  getCategoryIcon (mapCategory c)
    ∈ JS.VStr <$> [ "food-apple"; "carrot"; "package-variant"; "food" ]
  ∧ getCategoryIcon (mapCategory "fruit") = JS.VStr "food-apple"
  ∧ getCategoryIcon (mapCategory "vegetable") = JS.VStr "carrot"
  ∧ getCategoryIcon (mapCategory "packaged") = JS.VStr "package-variant"
  ∧ (categoryMap !! c = None → getCategoryIcon (mapCategory c) = JS.VStr "food").
Proof.
  assert (Hfood : categoryMap !! c = None → getCategoryIcon (mapCategory c) = JS.VStr "food").
  { intros Hk. destruct (JS.inherited c) eqn:Hc.
    - rewrite (mapCategory_inherited c Hc). apply inherited_keys in Hc.
      unfold JS.Object_prototype_keys in Hc. rewrite !elem_of_cons, elem_of_nil in Hc.
      repeat (destruct Hc as [->|Hc]; [reflexivity|]). destruct Hc.
    - rewrite (mapCategory_unknown c Hk Hc). reflexivity. }
  split; [|repeat split; exact Hfood].
  destruct (categoryMap !! c) as [v|] eqn:Hk.
  - rewrite (mapCategory_known c v Hk). apply categoryMap_lookup in Hk.
    destruct Hk as [[_ ->]|[[_ ->]|[_ ->]]]; simpl;
      rewrite !elem_of_cons; auto.
  - rewrite (Hfood eq_refl). simpl. rewrite !elem_of_cons. auto.
Qed.

End CategoriesAndIcons.

Lemma icon_of_every_category_witness :
  ScannerScreen.getCategoryIcon (DetectionService.mapCategory "toString") = JS.VStr "food".
Proof. apply (icon_of_every_category "toString"). reflexivity. Defined.

(** The icon table has the slip of the category table: looked up with one
    of the inherited names itself, it gives the inherited function. *)
Example getCategoryIcon_inherited :
  ScannerScreen.getCategoryIcon (JS.VStr "valueOf") = JS.VBuiltin "valueOf".
Proof. reflexivity. Qed.

(** ** Identifiers across runs *)
Section IdentifiersAcrossRuns.

Import DetectionService ScannerScreen.

Lemma string_app_inv_tail (a b c : string) : a +:+ c = b +:+ c → a = b.
Proof.
  revert b. induction a as [|x a IH]; intros [|y b] H; simpl in H.
  - reflexivity.
  - apply (f_equal String.length) in H. simpl in H.
    rewrite StringFacts.length_app in H. lia.
  - apply (f_equal String.length) in H. simpl in H.
    rewrite StringFacts.length_app in H. lia.
  - injection H as -> H. f_equal. apply IH, H.
Qed.

Lemma Z_to_string_inj (x y : Z) : JS.Z_to_string x = JS.Z_to_string y → x = y.
Proof.
  unfold JS.Z_to_string. intros H. apply DecimalZ.to_int_inj.
  assert (Some (Z.to_int x) = Some (Z.to_int y)) as [= E]; [|exact E].
  rewrite <- !NilEmpty.isi. rewrite H. reflexivity.
Qed.

(** An id can be read back: it fixes the index and the reading of the
    clock it was made from. *)
Lemma record_id_inj (now1 now2 : nat → Z) (t1 t2 i j : nat) (x y : DetectedItem.t) :
  InventoryRecord.id (Spec.record_at now1 t1 i x)
  = InventoryRecord.id (Spec.record_at now2 t2 j y)
  → i = j ∧ now1 t1 = now2 t2.
Proof.
  intros H.
  assert (Hij : i = j).
  { apply StringFacts.nat_to_string_inj.
    rewrite <- (StringFacts.last_segment_record_id now1 t1 i x).
    rewrite <- (StringFacts.last_segment_record_id now2 t2 j y).
    rewrite H. reflexivity. }
  split; [exact Hij|]. subst j. apply Z_to_string_inj.
  unfold Spec.record_at in H. cbn [InventoryRecord.id] in H.
  apply String.app_inj in H. rewrite <- !StringFacts.app_assoc in H.
  apply string_app_inv_tail in H.
  apply (string_app_inv_tail _ _ "-"). exact H.
Qed.

(** X6: an id identifies the position of its record and the millisecond
    at which it was made: two records, of the same call or of two calls,
    have the same id exactly when they have the same index and Date.now()
    gave the same value for both. *)
Theorem ids_collide_only_within_a_millisecond
    (now1 now2 : nat → Z) (k1 k2 : nat) (response1 response2 : DetectionResponse)
    (i j : nat) (r1 r2 : InventoryRecord.t) :
  Clock.run (processDetectionResults now1 response1) k1 !! i = Some r1 →
  Clock.run (processDetectionResults now2 response2) k2 !! j = Some r2 →
  InventoryRecord.id r1 = InventoryRecord.id r2
  ↔ i = j ∧ now1 (k1 + 2 * i)%nat = now2 (k2 + 2 * j)%nat.
Proof.
  rewrite !processDetectionResults_lookup. intros H1 H2.
  destruct (detected_items response1 !! i) as [x|]; [|discriminate].
  destruct (detected_items response2 !! j) as [y|]; [|discriminate].
  injection H1 as <-. injection H2 as <-. split.
  - apply record_id_inj.
  - intros [-> Hnow].
    change ("detected-" +:+ JS.Z_to_string (now1 (k1 + 2 * j)%nat) +:+ "-" +:+ JS.nat_to_string j
            = "detected-" +:+ JS.Z_to_string (now2 (k2 + 2 * j)%nat) +:+ "-"
              +:+ JS.nat_to_string j).
    rewrite Hnow. reflexivity.
Qed.

(** X7: when the clock does not run backwards, the records of one call
    carry detection times in detection order, and none is earlier than
    the time in its own id. *)
Theorem detection_times_in_order
    (now : nat → Z) (k : nat) (response : DetectionResponse)
    (i j : nat) (r1 r2 : InventoryRecord.t) :
  (∀ a b : nat, (a <= b)%nat → now a <= now b) →
  (i <= j)%nat →
  Clock.run (processDetectionResults now response) k !! i = Some r1 →
  Clock.run (processDetectionResults now response) k !! j = Some r2 →
  InventoryRecord.detectedAt r1 <= InventoryRecord.detectedAt r2
  ∧ InventoryRecord.id r1
    = "detected-" +:+ JS.Z_to_string (now (k + 2 * i)%nat) +:+ "-" +:+ JS.nat_to_string i
  ∧ now (k + 2 * i)%nat <= InventoryRecord.detectedAt r1.
Proof.
  intros Hmono Hij. rewrite !processDetectionResults_lookup. intros H1 H2.
  destruct (detected_items response !! i) as [x|]; [|discriminate].
  destruct (detected_items response !! j) as [y|]; [|discriminate].
  injection H1 as <-. injection H2 as <-. simpl.
  repeat split; apply Hmono; lia.
Qed.

Lemma filter_all {A} (P : A → Prop) `{∀ x, Decision (P x)} (l : list A) :
  Forall P l → filter P l = l.
Proof.
  induction 1 as [|x l Hx _ IH]; [reflexivity|].
  rewrite filter_cons_True by exact Hx. rewrite IH. reflexivity.
Qed.

Lemma filter_by_key_delete {A B} (f : A → B) `{EqDecision B} (l : list A) (i : nat) (x : A) :
  l !! i = Some x →
  (∀ j y, l !! j = Some y → f y = f x → j = i) →
  filter (λ y, f y ≠ f x) l = delete i l.
Proof.
  revert i. induction l as [|z l IH]; intros i Hi Huniq; [discriminate|].
  rewrite filter_cons. destruct i as [|i]; simpl in Hi.
  - injection Hi as ->. destruct (decide (f x ≠ f x)) as [Hne|_]; [congruence|].
    simpl. apply filter_all.
    apply Forall_forall. intros y Hy Heq.
    apply list_elem_of_lookup in Hy as [j Hj].
    specialize (Huniq (S j) y Hj Heq). discriminate.
  - destruct (decide (f z ≠ f x)) as [_|Heq].
    + simpl. f_equal. apply IH; [exact Hi|].
      intros j y Hj Hy. specialize (Huniq (S j) y Hj Hy). lia.
    + apply dec_stable in Heq. specialize (Huniq 0%nat z eq_refl Heq). discriminate.
Qed.

(** X8: taking an added item off the list of detected items by its id
    takes off that record and no other: what is left is the list without
    its position. *)
Theorem removeDetected_removes_one
    (now : nat → Z) (k : nat) (response : DetectionResponse)
    (i : nat) (r : InventoryRecord.t) :
  let records := Clock.run (processDetectionResults now response) k in
  records !! i = Some r →
  removeDetected r records = delete i records
  ∧ length (removeDetected r records) = (length records - 1)%nat.
Proof.
  intros records Hi.
  assert (E : removeDetected r records = delete i records).
  { unfold removeDetected. apply (filter_by_key_delete InventoryRecord.id); [exact Hi|].
    intros j y Hj Hid. unfold records in Hi, Hj.
    rewrite processDetectionResults_lookup in Hi, Hj.
    destruct (detected_items response !! i) as [a|]; [|discriminate].
    destruct (detected_items response !! j) as [b|]; [|discriminate].
    injection Hi as <-. injection Hj as <-.
    apply record_id_inj in Hid as [Hji _]. exact Hji. }
  split; [exact E|]. rewrite E, length_delete; [reflexivity|]. eauto.
Qed.

End IdentifiersAcrossRuns.

Lemma ids_collide_only_within_a_millisecond_witness :
  InventoryRecord.id (Spec.record_at Examples.frozen 0 0 Examples.apple)
  = InventoryRecord.id (Spec.record_at Examples.frozen 6 0 Examples.milk).
Proof.
  apply (ids_collide_only_within_a_millisecond
           Examples.frozen Examples.frozen 0 6 Examples.bad_batch
           {| detected_items := [ Examples.milk ] |} 0 0 _ _ eq_refl eq_refl).
  split; reflexivity.
Defined.

Lemma detection_times_in_order_witness :
  InventoryRecord.detectedAt (Spec.record_at Examples.ticking 0 0 Examples.apple)
  <= InventoryRecord.detectedAt (Spec.record_at Examples.ticking 4 2 Examples.milk).
Proof.
  apply (detection_times_in_order Examples.ticking 0 Examples.bad_batch 0 2 _ _).
  - intros a b Hab. unfold Examples.ticking. lia.
  - lia.
  - reflexivity.
  - reflexivity.
Defined.

Lemma removeDetected_removes_one_witness :
  ScannerScreen.removeDetected (Spec.record_at Examples.ticking 2 1 Examples.nameless)
    (Clock.run (DetectionService.processDetectionResults Examples.ticking Examples.bad_batch) 0)
  = [ Spec.record_at Examples.ticking 0 0 Examples.apple;
      Spec.record_at Examples.ticking 4 2 Examples.milk ].
Proof.
  apply (removeDetected_removes_one Examples.ticking 0 Examples.bad_batch 1 _ eq_refl).
Defined.

(** ** Storage paths, both ways *)
Section StoragePathsBothWays.

Import StorageService StorageUpload.

Local Abbreviation marker := (BUCKET +:+ "/").

Lemma getPathFromUrl_public (pre path : string) :
  ¬ Spec.contains pre marker →
  getPathFromUrl (JS.Str (pre +:+ marker +:+ path)) = JS.VStr path.
Proof.
  intros Hno. unfold getPathFromUrl. rewrite truthy_app_marker. cbn [negb].
  rewrite (indexOf_public_url pre path Hno).
  destruct (Z.eqb_spec (Z.of_nat (String.length pre)) (-1)) as [E|_]; [lia|].
  f_equal. unfold substring.
  rewrite <- Nat2Z.inj_add, Nat2Z.id, <- StringFacts.length_app.
  rewrite <- (StringFacts.app_assoc pre marker path).
  apply drop_chars_app.
Qed.

Lemma getPathFromUrl_foreign (url : string) :
  ¬ Spec.contains url marker → getPathFromUrl (JS.Str url) = JS.VNull.
Proof.
  intros Hno. unfold getPathFromUrl.
  destruct (JS.truthy (JS.VStr url)); [|reflexivity]. cbn [negb].
  unfold indexOf. rewrite (indexOf_from_none url marker 0 Hno). reflexivity.
Qed.

(** When [indexOf] finds the marker, the text before the position it
    returns has no occurrence that starts in it. *)
Lemma indexOf_from_split (s m : string) (pos : Z) :
  indexOf_from s m pos ≠ -1 →
  ∃ pre rest,
    s = pre +:+ m +:+ rest
    ∧ indexOf_from s m pos = pos + Z.of_nat (String.length pre)
    ∧ ∀ a b, pre = a +:+ b → b ≠ "" → String.prefix m (b +:+ m +:+ rest) = false.
Proof.
  revert pos. induction s as [|c s IH]; intros pos; cbn [indexOf_from].
  - destruct (String.prefix m "") eqn:Hp; [|congruence]. intros _.
    apply prefix_true_iff in Hp as [r Hr]. exists "", r. cbn [String.append String.length].
    split; [exact Hr|]. split; [lia|]. intros [|x a] b Hab Hb; [|discriminate].
    simpl in Hab. congruence.
  - destruct (String.prefix m (String c s)) eqn:Hp.
    + intros _. apply prefix_true_iff in Hp as [r Hr]. exists "", r.
      cbn [String.append String.length]. split; [exact Hr|]. split; [lia|].
      intros [|x a] b Hab Hb; [|discriminate]. simpl in Hab. congruence.
    + intros Hfound. destruct (IH (pos + 1) Hfound) as (pre & rest & Hs & Hidx & Hfirst).
      exists (String c pre), rest. cbn [String.append String.length].
      split; [congruence|]. split; [lia|].
      intros [|x a] b Hab Hb.
      * simpl in Hab. subst b. cbn [String.append]. rewrite <- Hs. exact Hp.
      * simpl in Hab. injection Hab as _ Hab. apply (Hfirst a b Hab Hb).
Qed.

Lemma first_occurrence_free (pre rest : string) :
  (∀ a b, pre = a +:+ b → b ≠ "" → String.prefix marker (b +:+ marker +:+ rest) = false) →
  ¬ Spec.contains pre marker.
Proof.
  intros Hfirst (a & b & Hpre).
  assert (Hfalse : String.prefix marker ((marker +:+ b) +:+ marker +:+ rest) = false).
  { apply (Hfirst a (marker +:+ b) Hpre). discriminate. }
  assert (Htrue : String.prefix marker ((marker +:+ b) +:+ marker +:+ rest) = true).
  { apply prefix_true_iff. exists (b +:+ marker +:+ rest).
    apply StringFacts.app_assoc. }
  congruence.
Qed.

(** X9: getPathFromUrl returns a path only for a URL that ends in
    "fridge-photos/" followed by that path, and then it is the text after
    the first such marker; it returns null only for null, undefined and
    URLs without the marker.  With the other direction, that makes the
    result a complete description of the URL's shape. *)
Theorem getPathFromUrl_characterised (url : JS.nullable_string) (path : string) :
  (getPathFromUrl url = JS.VStr path ↔
   ∃ pre, url = JS.Str (pre +:+ BUCKET +:+ "/" +:+ path)
          ∧ ¬ Spec.contains pre (BUCKET +:+ "/"))
  ∧ (getPathFromUrl url = JS.VNull ↔
     ∀ s, url = JS.Str s → ¬ Spec.contains s (BUCKET +:+ "/")).
Proof.
  assert (Hshape : ∀ u, getPathFromUrl (JS.Str u) ≠ JS.VNull →
            ∃ pre rest, u = pre +:+ marker +:+ rest ∧ ¬ Spec.contains pre marker
                        ∧ getPathFromUrl (JS.Str u) = JS.VStr rest).
  { intros u Hnot.
    assert (Hidx : indexOf_from u marker 0 ≠ -1).
    { intros E. apply Hnot. unfold getPathFromUrl, indexOf.
      destruct (JS.truthy (JS.VStr u)); [|reflexivity]. cbn [negb]. rewrite E. reflexivity. }
    destruct (indexOf_from_split u marker 0 Hidx) as (pre & rest & Hu & _ & Hfirst).
    exists pre, rest. apply first_occurrence_free in Hfirst.
    split; [exact Hu|]. split; [exact Hfirst|].
    rewrite Hu. apply getPathFromUrl_public, Hfirst. }
  split; split.
  - intros Hget. destruct url as [| |u]; try discriminate.
    destruct (Hshape u) as (pre & rest & Hu & Hfree & Hrest); [congruence|].
    exists pre. split; [|exact Hfree]. rewrite Hget in Hrest. injection Hrest as ->.
    f_equal. exact Hu.
  - intros (pre & -> & Hfree). apply (getPathFromUrl_public pre path Hfree).
  - intros Hnull s -> Hc.
    destruct Hc as (a & b & Hs).
    destruct (Z.eq_dec (indexOf_from s marker 0) (-1)) as [E|E].
    + pose proof (indexOf_from_found s marker 0 (ex_intro _ a (ex_intro _ b Hs)) ltac:(lia)).
      lia.
    + destruct (indexOf_from_split s marker 0 E) as (pre & rest & Hu & _ & Hfirst).
      apply first_occurrence_free in Hfirst.
      rewrite Hu, (getPathFromUrl_public pre rest Hfirst) in Hnull. discriminate.
  - intros Hfree. destruct url as [| |u]; try reflexivity.
    apply getPathFromUrl_foreign, Hfree. reflexivity.
Qed.

(** X10: handing the result of getPathFromUrl to deleteItemImage removes
    from the bucket exactly the path of a public URL of the bucket, once;
    for a URL of another place, and for a URL that ends at the bucket's
    marker, it removes nothing. *)
Theorem delete_by_url (url path : string) (p : JS.nullable_string) :
  JS.to_value p = getPathFromUrl (JS.Str url) →
  (∀ pre, url = pre +:+ BUCKET +:+ "/" +:+ path → ¬ Spec.contains pre (BUCKET +:+ "/") →
          deleteItemImage p = if String.eqb path "" then [] else [ remove BUCKET [ path ] ])
  ∧ (¬ Spec.contains url (BUCKET +:+ "/") → deleteItemImage p = []).
Proof.
  intros Hp. split.
  - intros pre -> Hfree.
    change (pre +:+ BUCKET +:+ "/" +:+ path) with (pre +:+ marker +:+ path) in Hp.
    rewrite (getPathFromUrl_public pre path Hfree) in Hp.
    destruct p as [| |q]; try discriminate. injection Hp as ->.
    unfold deleteItemImage. simpl. destruct (String.eqb path ""); reflexivity.
  - intros Hfree. rewrite (getPathFromUrl_foreign url Hfree) in Hp.
    destruct p as [| |q]; try discriminate; reflexivity.
Qed.

End StoragePathsBothWays.

Lemma getPathFromUrl_characterised_witness :
  ∃ pre, JS.Str "https://h/public/fridge-photos/a/fridge-photos/b.jpg"
         = JS.Str (pre +:+ StorageService.BUCKET +:+ "/" +:+ "a/fridge-photos/b.jpg")
         ∧ ¬ Spec.contains pre (StorageService.BUCKET +:+ "/").
Proof.
  apply (getPathFromUrl_characterised
           (JS.Str "https://h/public/fridge-photos/a/fridge-photos/b.jpg")
           "a/fridge-photos/b.jpg").
  reflexivity.
Defined.

Lemma delete_by_url_witness :
  StorageUpload.deleteItemImage (JS.Str "u-17/1767225600000.jpg")
  = [ StorageUpload.remove StorageService.BUCKET [ "u-17/1767225600000.jpg" ] ]
  ∧ StorageUpload.deleteItemImage JS.Null = [].
Proof.
  split.
  - apply (proj1 (delete_by_url
             "https://xyz.supabase.co/storage/v1/object/public/fridge-photos/u-17/1767225600000.jpg"
             "u-17/1767225600000.jpg" (JS.Str "u-17/1767225600000.jpg") eq_refl)
             "https://xyz.supabase.co/storage/v1/object/public/" eq_refl).
    apply not_contains_by_indexOf. reflexivity.
  - apply (proj2 (delete_by_url "https://example.org/a.jpg" "" JS.Null eq_refl)).
    apply not_contains_by_indexOf. reflexivity.
Defined.

(** ** Uploads *)
Section Uploads.

Import StorageService StorageUpload.

Variable auth : getUser_result.
Variable timestamp : Z.
Variable createResizedImage : string → Z → JS.completion string.
Variable readAsDataURL : string → JS.completion string.
Variable storage_upload : string → string → option JS.Error.
Variable getPublicUrl : string → string.

Local Abbreviation upload_image :=
  (uploadItemImage auth timestamp createResizedImage readAsDataURL storage_upload getPublicUrl).

Local Abbreviation path_of userId := (userId +:+ "/" +:+ JS.Z_to_string timestamp +:+ ".jpg").

(** X11: without a signed-in user uploadItemImage touches no storage: it
    throws the error of the auth service, or "User not authenticated"
    when that reported none, before anything is resized or uploaded. *)
Theorem upload_requires_user (base64Image : string) (resizeWidth : Z) :
  error auth ≠ None ∨ user auth = None →
  ∃ e, upload_image base64Image resizeWidth = ([], JS.Throw e)
       ∧ (error auth = Some e
          ∨ error auth = None ∧ e = JS.new_Error "User not authenticated").
Proof.
  unfold uploadItemImage, getUserId. intros [Herr|Huser].
  - destruct (error auth) as [e|]; [|congruence]. exists e. split; auto.
  - destruct (error auth) as [e|].
    + exists e. split; auto.
    + rewrite Huser. eexists. split; [reflexivity|]. right. split; reflexivity.
Qed.

Lemma upload_shape (base64Image : string) (resizeWidth : Z) :
  let calls := fst (upload_image base64Image resizeWidth) in
  let result := snd (upload_image base64Image resizeWidth) in
  (calls = []
   ∨ ∃ userId body, user auth = Some userId
                    ∧ calls = [ upload BUCKET (path_of userId) body "image/jpeg" false ])
  ∧ ∀ url path, result = JS.Normal (url, path) →
      ∃ userId body, user auth = Some userId ∧ error auth = None
                     ∧ path = path_of userId ∧ url = getPublicUrl path
                     ∧ calls = [ upload BUCKET path body "image/jpeg" false ]
                     ∧ storage_upload path body = None.
Proof.
  unfold uploadItemImage, getUserId.
  destruct (error auth) as [e|]; simpl.
  { split; [left; reflexivity|]. intros url path H. discriminate. }
  destruct (user auth) as [userId|]; simpl.
  2:{ split; [left; reflexivity|]. intros url path H. discriminate. }
  match goal with |- context [base64Decode ?x] => destruct (base64Decode x) as [body|e] end;
    simpl.
  2:{ split; [left; reflexivity|]. intros url path H. discriminate. }
  destruct (storage_upload _ body) as [e|] eqn:Hup; simpl.
  - split; [right; eauto|]. intros url path H. discriminate.
  - split; [right; eauto|]. intros url path [= <- <-].
    exists userId, body. repeat split. exact Hup.
Qed.

(** X12: uploadItemImage makes at most one storage call, an upload into
    the bucket under the path userId/timestamp.jpg as image/jpeg with
    upsert off, so it never overwrites a stored file; it returns only
    after that call, when storage reported no error, and then returns
    that path with the public URL built for it. *)
Theorem upload_storage_discipline (base64Image : string) (resizeWidth : Z) :
  let calls := fst (upload_image base64Image resizeWidth) in
  let result := snd (upload_image base64Image resizeWidth) in
  (length calls <= 1)%nat
  ∧ Forall (λ call, ∃ userId body,
                user auth = Some userId
                ∧ call = upload BUCKET (path_of userId) body "image/jpeg" false) calls
  ∧ ∀ url path, result = JS.Normal (url, path) →
      ∃ userId body, user auth = Some userId ∧ error auth = None
                     ∧ path = path_of userId ∧ url = getPublicUrl path
                     ∧ calls = [ upload BUCKET path body "image/jpeg" false ]
                     ∧ storage_upload path body = None.
Proof.
  intros calls result. destruct (upload_shape base64Image resizeWidth) as [Hcalls Hret].
  fold calls in Hcalls. split; [|split; [|exact Hret]].
  - destruct Hcalls as [->|(userId & body & _ & ->)]; simpl; lia.
  - destruct Hcalls as [->|(userId & body & Huser & ->)]; [constructor|].
    constructor; [eauto|constructor].
Qed.

(** X13: a failure of the resizer, or of reading the resized file back,
    never fails the upload: the original image is uploaded instead. *)
Theorem upload_survives_resizer (base64Image : string) (resizeWidth : Z) (userId : string) :
  user auth = Some userId → error auth = None →
  (∃ e, createResizedImage ("data:image/jpeg;base64," +:+ base64Image) resizeWidth
        = JS.Throw e)
  ∨ (∃ uri e, createResizedImage ("data:image/jpeg;base64," +:+ base64Image) resizeWidth
              = JS.Normal uri ∧ readAsDataURL uri = JS.Throw e) →
  upload_image base64Image resizeWidth
  = ([ upload BUCKET (path_of userId) base64Image "image/jpeg" false ],
     match storage_upload (path_of userId) base64Image with
     | Some e => JS.Throw e
     | None => JS.Normal (getPublicUrl (path_of userId), path_of userId)
     end).
Proof.
  intros Huser Herr Hfail. unfold uploadItemImage, getUserId. rewrite Herr, Huser.
  cbv zeta.
  assert (Hfinal :
    (if negb (String.eqb
                (JS.catch_with
                   (createResizedImage ("data:image/jpeg;base64," +:+ base64Image) resizeWidth)
                   ("data:image/jpeg;base64," +:+ base64Image))
                ("data:image/jpeg;base64," +:+ base64Image))
     then JS.catch_with
            (JS.bind
               (readAsDataURL
                  (JS.catch_with
                     (createResizedImage ("data:image/jpeg;base64," +:+ base64Image)
                        resizeWidth)
                     ("data:image/jpeg;base64," +:+ base64Image)))
               (λ dataUrl, JS.Normal (split_comma_1 dataUrl)))
            (JS.Str base64Image)
     else JS.Str base64Image) = JS.Str base64Image).
  { destruct Hfail as [[e He]|(uri & e & Huri & Hread)].
    - rewrite He. cbn [JS.catch_with]. rewrite String.eqb_refl. reflexivity.
    - rewrite Huri. cbn [JS.catch_with]. rewrite Hread.
      destruct (String.eqb uri _); reflexivity. }
  rewrite Hfinal. cbn [base64Decode].
  destruct (storage_upload _ _); reflexivity.
Qed.

(** X14: what uploadItemImage returns can be taken apart again: when the
    storage client builds its public URLs as a prefix free of
    "fridge-photos/", then "fridge-photos/", then the path, getPathFromUrl
    gives back the returned path from the returned URL, and
    deleteItemImage on that path removes that one file. *)
Theorem upload_then_getPathFromUrl (base64Image : string) (resizeWidth : Z)
    (url path : string) :
  snd (upload_image base64Image resizeWidth) = JS.Normal (url, path) →
  (∃ pre, getPublicUrl path = pre +:+ BUCKET +:+ "/" +:+ path
          ∧ ¬ Spec.contains pre (BUCKET +:+ "/")) →
  getPathFromUrl (JS.Str url) = JS.VStr path
  ∧ deleteItemImage (JS.Str path) = [ remove BUCKET [ path ] ].
Proof.
  intros Hret (pre & Hurl & Hfree).
  destruct (upload_shape base64Image resizeWidth) as [_ Hdone].
  destruct (Hdone url path Hret) as (userId & body & _ & _ & Hpath & Hu & _).
  split.
  - rewrite Hu, Hurl. apply (getPathFromUrl_public pre path Hfree).
  - rewrite Hpath. unfold deleteItemImage. destruct userId; reflexivity.
Qed.

End Uploads.

Lemma split_comma_1_data_url (head base64 : string) :
  fst (StorageUpload.until_comma head) = head →
  fst (StorageUpload.until_comma base64) = base64 →
  StorageUpload.split_comma_1 (head +:+ "," +:+ base64) = JS.Str base64.
Proof.
  intros Hhead Hb. unfold StorageUpload.split_comma_1.
  assert (E : StorageUpload.until_comma (head +:+ "," +:+ base64) = (head, Some base64)).
  { clear Hb. induction head as [|c head IH]; [reflexivity|].
    cbn [String.append StorageUpload.until_comma] in *.
    destruct (Ascii.eqb c ","); [discriminate Hhead|].
    destruct (StorageUpload.until_comma head) as [h r] eqn:Hh.
    simpl in Hhead. injection Hhead as Hhead. rewrite (IH Hhead). reflexivity. }
  rewrite E. simpl. rewrite Hb. reflexivity.
Qed.

Section ResizedUploads.

Import StorageService StorageUpload.

(** X15: when the resizer gives a new file and reading it back gives a
    data URL, the body uploaded is the base64 text after the comma of that
    URL, not the original image. *)
Theorem upload_resized_body
    (auth : getUser_result) (timestamp : Z)
    (createResizedImage : string → Z → JS.completion string)
    (readAsDataURL : string → JS.completion string)
    (storage_upload : string → string → option JS.Error)
    (getPublicUrl : string → string)
    (base64Image : string) (resizeWidth : Z) (userId uri head base64 : string) :
  user auth = Some userId → error auth = None →
  createResizedImage ("data:image/jpeg;base64," +:+ base64Image) resizeWidth = JS.Normal uri →
  uri ≠ "data:image/jpeg;base64," +:+ base64Image →
  readAsDataURL uri = JS.Normal (head +:+ "," +:+ base64) →
  fst (until_comma head) = head → fst (until_comma base64) = base64 →
  fst (uploadItemImage auth timestamp createResizedImage readAsDataURL storage_upload
         getPublicUrl base64Image resizeWidth)
  = [ upload BUCKET (userId +:+ "/" +:+ JS.Z_to_string timestamp +:+ ".jpg") base64
        "image/jpeg" false ].
Proof.
  intros Huser Herr Hresize Hnew Hread Hhead Hb.
  unfold uploadItemImage, getUserId. rewrite Herr, Huser. cbv zeta.
  rewrite Hresize. cbn [JS.catch_with].
  destruct (String.eqb_spec uri ("data:image/jpeg;base64," +:+ base64Image)) as [E|_];
    [contradiction|].
  cbn [negb]. rewrite Hread. cbn [JS.bind JS.catch_with].
  rewrite (split_comma_1_data_url head base64 Hhead Hb). cbn [base64Decode].
  destruct (storage_upload _ _); reflexivity.
Qed.

End ResizedUploads.

Lemma upload_requires_user_witness :
  StorageUpload.uploadItemImage UploadExamples.signed_out 1767225600123
    UploadExamples.resizer_ok UploadExamples.read_back UploadExamples.storage_ok
    UploadExamples.public_url "/9j/4AAQ" 400
  = ([], JS.Throw (JS.new_Error "User not authenticated")).
Proof.
  destruct (upload_requires_user UploadExamples.signed_out 1767225600123
              UploadExamples.resizer_ok UploadExamples.read_back UploadExamples.storage_ok
              UploadExamples.public_url "/9j/4AAQ" 400 (or_intror eq_refl))
    as (e & Hrun & [Herr|[_ ->]]); [discriminate Herr|exact Hrun].
Defined.

Lemma upload_storage_discipline_witness :
  ∃ body,
    fst (StorageUpload.uploadItemImage UploadExamples.signed_in 1767225600123
           UploadExamples.resizer_ok UploadExamples.read_back UploadExamples.storage_ok
           UploadExamples.public_url "/9j/4AAQ" 400)
    = [ StorageUpload.upload StorageService.BUCKET "u-17/1767225600123.jpg" body
          "image/jpeg" false ].
Proof.
  destruct (proj2 (proj2 (upload_storage_discipline UploadExamples.signed_in 1767225600123
              UploadExamples.resizer_ok UploadExamples.read_back UploadExamples.storage_ok
              UploadExamples.public_url "/9j/4AAQ" 400))
              (UploadExamples.public_url "u-17/1767225600123.jpg") "u-17/1767225600123.jpg"
              eq_refl)
    as (userId & body & _ & _ & _ & _ & Hcalls & _).
  exists body. exact Hcalls.
Defined.

Lemma upload_survives_resizer_witness :
  StorageUpload.uploadItemImage UploadExamples.signed_in 1767225600123
    UploadExamples.resizer_down UploadExamples.read_back UploadExamples.storage_ok
    UploadExamples.public_url "/9j/4AAQ" 400
  = ([ StorageUpload.upload StorageService.BUCKET "u-17/1767225600123.jpg" "/9j/4AAQ"
         "image/jpeg" false ],
     JS.Normal (UploadExamples.public_url "u-17/1767225600123.jpg", "u-17/1767225600123.jpg")).
Proof.
  apply (upload_survives_resizer UploadExamples.signed_in 1767225600123
           UploadExamples.resizer_down UploadExamples.read_back UploadExamples.storage_ok
           UploadExamples.public_url "/9j/4AAQ" 400 "u-17" eq_refl eq_refl).
  left. eexists. reflexivity.
Defined.

Lemma upload_then_getPathFromUrl_witness :
  StorageService.getPathFromUrl
    (JS.Str (UploadExamples.public_url "u-17/1767225600123.jpg"))
  = JS.VStr "u-17/1767225600123.jpg".
Proof.
  apply (upload_then_getPathFromUrl UploadExamples.signed_in 1767225600123
           UploadExamples.resizer_ok UploadExamples.read_back UploadExamples.storage_ok
           UploadExamples.public_url "/9j/4AAQ" 400 _ _ eq_refl).
  exists "https://xyz.supabase.co/storage/v1/object/public/". split; [reflexivity|].
  apply not_contains_by_indexOf. reflexivity.
Defined.

Lemma upload_resized_body_witness :
  fst (StorageUpload.uploadItemImage UploadExamples.signed_in 1767225600123
         UploadExamples.resizer_ok UploadExamples.read_back UploadExamples.storage_ok
         UploadExamples.public_url "/9j/4AAQ" 400)
  = [ StorageUpload.upload StorageService.BUCKET "u-17/1767225600123.jpg" "/9j/2wBD"
        "image/jpeg" false ].
Proof.
  apply (upload_resized_body UploadExamples.signed_in 1767225600123
           UploadExamples.resizer_ok UploadExamples.read_back UploadExamples.storage_ok
           UploadExamples.public_url "/9j/4AAQ" 400 "u-17" "file:///cache/resized.jpg"
           "data:image/jpeg;base64" "/9j/2wBD" eq_refl eq_refl eq_refl);
    try reflexivity.
  discriminate.
Defined.

(** ** Adding detected items *)
Section AddingItems.

Import Scanner.

Variable LocalTZA : Z → bool → Z.
Variable MonthStartDay : Z → Z.
Variable isAuthenticated : bool.
Variable capturedBase64 : JS.nullable_string.
Variable uploadItemImage : string → JS.completion (string * string).

Local Abbreviation add_to_fridge :=
  (handleAddToFridge LocalTZA MonthStartDay isAuthenticated capturedBase64 uploadItemImage).

(** X16: handleAddToFridge dispatches nothing for a user who is not signed
    in, and nothing when the upload of the captured photo fails; a
    dispatched item carries the URL and path of the upload made for it
    when a photo was captured, and neither when none was. *)
Theorem add_needs_sign_in_and_upload (item : InventoryRecord.t) (today : Z) :
  (isAuthenticated = false → add_to_fridge item today = NotSignedIn)
  ∧ (∀ b e, isAuthenticated = true → capturedBase64 = JS.Str b → b ≠ "" →
            uploadItemImage b = JS.Throw e → add_to_fridge item today = Failed e)
  ∧ (∀ payload, add_to_fridge item today = Dispatched payload →
       isAuthenticated = true
       ∧ ((∃ b url path, capturedBase64 = JS.Str b ∧ b ≠ ""
                         ∧ uploadItemImage b = JS.Normal (url, path)
                         ∧ imageUrl payload = JS.Str url ∧ imagePath payload = JS.Str path)
          ∨ (JS.truthy (JS.to_value capturedBase64) = false
             ∧ imageUrl payload = JS.Absent ∧ imagePath payload = JS.Absent))).
Proof.
  unfold handleAddToFridge. split; [|split].
  - intros ->. reflexivity.
  - intros b e -> -> Hb Hup. cbn [negb]. simpl JS.truthy.
    destruct (String.eqb_spec b ""); [contradiction|]. cbn [negb].
    rewrite Hup. reflexivity.
  - intros payload. destruct isAuthenticated; cbn [negb]; [|discriminate].
    intros H. split; [reflexivity|].
    destruct capturedBase64 as [| |b]; cbn [JS.bind] in H.
    + right. destruct (toISOString_date _); cbn [JS.bind] in H; [|discriminate].
      injection H as <-. repeat split.
    + right. destruct (toISOString_date _); cbn [JS.bind] in H; [|discriminate].
      injection H as <-. repeat split.
    + cbn [JS.to_value]. destruct (JS.truthy (JS.VStr b)) eqn:Ht.
      * left. destruct (uploadItemImage b) as [[url path]|e] eqn:Hup;
          cbn [JS.bind fst snd] in H; [|discriminate].
        destruct (toISOString_date _); cbn [JS.bind] in H; [|discriminate].
        injection H as <-. exists b, url, path. repeat split; [|exact Hup].
        intros E. rewrite E in Ht. discriminate Ht.
      * right. cbn [JS.bind] in H.
        destruct (toISOString_date _); cbn [JS.bind] in H; [|discriminate].
        injection H as <-. repeat split.
Qed.

(** X17: a dispatched item takes its category from mapCategory and its
    notes from the backend's extra text, "OCR: " followed by the text, or
    nothing when there is none; it is always one item with amountLeft 100
    and quantity 1. *)
Theorem payload_of_detected_item
    (now : nat → Z) (k : nat) (response : DetectionResponse)
    (i : nat) (item : DetectedItem.t) (record : InventoryRecord.t)
    (today : Z) (payload : FridgeItemPayload) :
  detected_items response !! i = Some item →
  Clock.run (DetectionService.processDetectionResults now response) k !! i = Some record →
  add_to_fridge record today = Dispatched payload →
  category payload = DetectionService.mapCategory (DetectedItem.category item)
  ∧ notes payload
    = match DetectedItem.extra item with
      | JS.Str s => if String.eqb s "" then "" else "OCR: " +:+ s
      | _ => ""
      end
  ∧ amountLeft payload = 100 ∧ quantity payload = 1 ∧ unit payload = "item".
Proof.
  intros Hitem Hrecord. rewrite processDetectionResults_lookup, Hitem in Hrecord.
  injection Hrecord as <-. unfold handleAddToFridge.
  destruct isAuthenticated; cbn [negb]; [|discriminate].
  match goal with |- context [JS.bind ?c _] => destruct c as [image|e] end;
    cbn [JS.bind]; [|discriminate].
  destruct (toISOString_date _); cbn [JS.bind]; [|discriminate].
  intros [= <-]. cbn. repeat split.
  destruct (DetectedItem.extra item) as [| |s]; try reflexivity.
  unfold JS.or. simpl. destruct (String.eqb s "") eqn:Hs; simpl; rewrite ?Hs; reflexivity.
Qed.

(** X18: when local time has the same offset from UTC now and a week from
    now, the expiry date is the UTC date of the call plus exactly seven
    days. *)
Theorem expiry_seven_days (item : InventoryRecord.t) (today : Z)
    (payload : FridgeItemPayload) :
  LocalTZA (today + LocalTZA today true + 7 * Date.msPerDay) false = LocalTZA today true →
  add_to_fridge item today = Dispatched payload →
  expiryDate payload = Date.Day today + 7.
Proof.
  intros Hsame. unfold handleAddToFridge.
  destruct isAuthenticated; cbn [negb]; [|discriminate].
  rewrite setDate_getDate_plus.
  match goal with |- context [JS.bind ?c _] => destruct c as [image|e] end;
    cbn [JS.bind]; [|discriminate].
  destruct (Date.TimeClip _) as [u|] eqn:Hclip; cbn [toISOString_date JS.bind];
    [|discriminate].
  intros [= <-]. cbn [expiryDate].
  apply TimeClip_Some in Hclip. subst u.
  unfold Date.UTC, Date.LocalTime. rewrite Hsame.
  rewrite <- Day_plus. f_equal. lia.
Qed.

End AddingItems.

Lemma add_needs_sign_in_and_upload_witness :
  Scanner.handleAddToFridge ScannerExamples.IST ScannerExamples.january_2026 false
    (JS.Str "/9j/4AAQSkZJRg==") ScannerExamples.upload_ok
    ScannerExamples.detected_apple ScannerExamples.later
  = Scanner.NotSignedIn.
Proof.
  apply (add_needs_sign_in_and_upload ScannerExamples.IST ScannerExamples.january_2026 false
           (JS.Str "/9j/4AAQSkZJRg==") ScannerExamples.upload_ok
           ScannerExamples.detected_apple ScannerExamples.later).
  reflexivity.
Defined.

Lemma payload_of_detected_item_witness :
  ∃ payload,
    Scanner.handleAddToFridge ScannerExamples.IST ScannerExamples.january_2026 true JS.Null
      ScannerExamples.upload_ok (Spec.record_at Examples.ticking 2 1 Examples.milk)
      ScannerExamples.later
    = Scanner.Dispatched payload
    ∧ Scanner.notes payload = "OCR: AMUL MILK".
Proof.
  eexists. split; [reflexivity|].
  apply (payload_of_detected_item ScannerExamples.IST ScannerExamples.january_2026 true JS.Null
           ScannerExamples.upload_ok Examples.ticking 0 Examples.readme_response 1
           Examples.milk _ ScannerExamples.later _ eq_refl eq_refl eq_refl).
Defined.

Lemma expiry_seven_days_witness :
  ∃ payload,
    Scanner.handleAddToFridge ScannerExamples.IST ScannerExamples.january_2026 true JS.Null
      ScannerExamples.upload_ok ScannerExamples.detected_apple ScannerExamples.later
    = Scanner.Dispatched payload
    ∧ Scanner.expiryDate payload = Date.Day ScannerExamples.later + 7.
Proof.
  eexists. split; [reflexivity|].
  apply (expiry_seven_days ScannerExamples.IST ScannerExamples.january_2026 true JS.Null
           ScannerExamples.upload_ok ScannerExamples.detected_apple ScannerExamples.later _
           eq_refl eq_refl).
Defined.

(** ** Scanning *)
Section Scanning.

Import ScannerScreen.

Variable camera_current : bool.
Variable takePhoto : JS.completion string.
Variable readFile : string → JS.completion string.
Variable detect : string → JS.completion DetectionResponse.
Variable now : nat → Z.
Variable tick : nat.

Local Abbreviation capture :=
  (handleCapture camera_current takePhoto readFile detect now tick).

Lemma message_or_nonempty (err : JS.Error) (fallback : string) :
  fallback ≠ "" → message_or err fallback ≠ "".
Proof.
  intros Hf. unfold message_or.
  destruct (String.eqb_spec (JS.message err) ""); simpl; assumption.
Qed.

Lemma scan_failed_spec (st : State) (err : JS.Error) :
  let (st', alerts) := scan_failed st err in
  isScanning st' = false
  ∧ detectedItems st' = detectedItems st ∧ showResults st' = showResults st
  ∧ capturedBase64 st' = capturedBase64 st
  ∧ (∃ m, m ≠ "" ∧ error st' = JS.Str m ∧ (JS.message err ≠ "" → m = JS.message err))
  ∧ ∃ m, m ≠ "" ∧ alerts = [ {| title := "Scan Failed"; message := m |} ]
         ∧ (JS.message err ≠ "" → m = JS.message err).
Proof.
  unfold scan_failed. repeat split.
  - eexists. split; [|split; [reflexivity|]].
    + apply message_or_nonempty. discriminate.
    + intros Hm. unfold message_or.
      destruct (String.eqb_spec (JS.message err) ""); [contradiction|reflexivity].
  - eexists. split; [|split; [reflexivity|]].
    + apply message_or_nonempty. discriminate.
    + intros Hm. unfold message_or.
      destruct (String.eqb_spec (JS.message err) ""); [contradiction|reflexivity].
Qed.

(** X19: handleCapture never leaves the scanning indicator on, shows at
    most one alert, and never an alert with an empty message, even for an
    error whose own message is empty; without a mounted camera it does
    nothing at all. *)
Theorem capture_always_settles (st : State) :
  (camera_current = false → capture st = (st, []))
  ∧ (camera_current = true → isScanning (fst (capture st)) = false)
  ∧ (length (snd (capture st)) <= 1)%nat
  ∧ Forall (λ a, title a = "Scan Failed" ∧ message a ≠ "") (snd (capture st)).
Proof.
  unfold handleCapture. destruct camera_current; cbn [negb].
  2:{ repeat split; try discriminate; simpl; auto. }
  split; [discriminate|].
  destruct (JS.bind takePhoto readFile) as [b|e].
  - destruct (detect b) as [response|e].
    + repeat split; simpl; auto.
    + pose proof (scan_failed_spec
                    {| isScanning := true; capturedBase64 := JS.Str b;
                       detectedItems := detectedItems st; showResults := showResults st;
                       error := JS.Null |} e) as H.
      destruct (scan_failed _ e) as [st' alerts].
      destruct H as (H1 & _ & _ & _ & _ & m & Hm & -> & _).
      repeat split; simpl; auto; repeat constructor; auto.
  - pose proof (scan_failed_spec
                  {| isScanning := true; capturedBase64 := capturedBase64 st;
                     detectedItems := detectedItems st; showResults := showResults st;
                     error := JS.Null |} e) as H.
    destruct (scan_failed _ e) as [st' alerts].
    destruct H as (H1 & _ & _ & _ & _ & m & Hm & -> & _).
    repeat split; simpl; auto; repeat constructor; auto.
Qed.

(** X20: a scan that succeeds replaces the detected items by the processed
    response, shows the results and clears the error; a scan that fails,
    at the camera, at reading the file or at the backend, keeps the items
    detected before and the visibility of the results, and reports the
    error's message, or a fixed text when that is empty. *)
Theorem capture_outcome (st : State) :
  camera_current = true →
  (∀ b response,
      JS.bind takePhoto readFile = JS.Normal b → detect b = JS.Normal response →
      capture st
      = ({| isScanning := false; capturedBase64 := JS.Str b;
            detectedItems :=
              Clock.run (DetectionService.processDetectionResults now response) tick;
            showResults := true; error := JS.Null |}, []))
  ∧ (∀ e,
       JS.bind takePhoto readFile = JS.Throw e
       ∨ (∃ b, JS.bind takePhoto readFile = JS.Normal b ∧ detect b = JS.Throw e) →
       detectedItems (fst (capture st)) = detectedItems st
       ∧ showResults (fst (capture st)) = showResults st
       ∧ ∃ m, m ≠ "" ∧ error (fst (capture st)) = JS.Str m
              ∧ (JS.message e ≠ "" → m = JS.message e)).
Proof.
  intros Hcam. unfold handleCapture. rewrite Hcam. cbn [negb]. split.
  - intros b response -> ->. reflexivity.
  - intros e [->|(b & -> & ->)].
    + pose proof (scan_failed_spec
                    {| isScanning := true; capturedBase64 := capturedBase64 st;
                       detectedItems := detectedItems st; showResults := showResults st;
                       error := JS.Null |} e) as H.
      destruct (scan_failed _ e) as [st' alerts].
      destruct H as (_ & H2 & H3 & _ & H5 & _). simpl in *. auto.
    + pose proof (scan_failed_spec
                    {| isScanning := true; capturedBase64 := JS.Str b;
                       detectedItems := detectedItems st; showResults := showResults st;
                       error := JS.Null |} e) as H.
      destruct (scan_failed _ e) as [st' alerts].
      destruct H as (_ & H2 & H3 & _ & H5 & _). simpl in *. auto.
Qed.

End Scanning.

Lemma capture_always_settles_witness :
  ScannerScreen.handleCapture false CaptureExamples.photo_path CaptureExamples.read_photo
    CaptureExamples.detect_readme Examples.ticking 0 CaptureExamples.idle
  = (CaptureExamples.idle, [])
  ∧ ScannerScreen.isScanning
      (fst (ScannerScreen.handleCapture true CaptureExamples.photo_path
              CaptureExamples.read_photo CaptureExamples.detect_empty_message
              Examples.ticking 0 CaptureExamples.idle))
    = false.
Proof.
  split.
  - apply (capture_always_settles false CaptureExamples.photo_path CaptureExamples.read_photo
             CaptureExamples.detect_readme Examples.ticking 0 CaptureExamples.idle).
    reflexivity.
  - apply (capture_always_settles true CaptureExamples.photo_path CaptureExamples.read_photo
             CaptureExamples.detect_empty_message Examples.ticking 0 CaptureExamples.idle).
    reflexivity.
Defined.

Lemma capture_outcome_witness :
  ScannerScreen.detectedItems
    (fst (ScannerScreen.handleCapture true CaptureExamples.photo_path
            CaptureExamples.read_photo CaptureExamples.detect_empty_message
            Examples.ticking 0 CaptureExamples.idle))
  = [ ScannerExamples.detected_apple ].
Proof.
  apply (proj2 (capture_outcome true CaptureExamples.photo_path CaptureExamples.read_photo
           CaptureExamples.detect_empty_message Examples.ticking 0 CaptureExamples.idle
           eq_refl) (JS.new_Error "")).
  right. eexists. split; reflexivity.
Defined.

(** The alert of a scan that failed with an empty message. *)
Example capture_empty_message :
  snd (ScannerScreen.handleCapture true CaptureExamples.photo_path
         CaptureExamples.read_photo CaptureExamples.detect_empty_message
         Examples.ticking 0 CaptureExamples.idle)
  = [ {| ScannerScreen.title := "Scan Failed";
         ScannerScreen.message :=
           "Could not detect items. Check if backend server is running." |} ].
Proof. reflexivity. Qed.

(** ** Adding all detected items *)
Section AddingAll.

Import Scanner ScannerScreen.

Variable LocalTZA : Z → bool → Z.
Variable MonthStartDay : Z → Z.
Variable uploadItemImage : nat → string → JS.completion (string * string).
Variable today : nat → Z.

Hypothesis LocalTZA_bound : ∀ t isUTC, Z.abs (LocalTZA t isUTC) <= Date.msPerDay.

(** An add succeeds when the user is signed in, the upload succeeds and
    the date a week ahead is a valid time value. *)
Lemma handleAddToFridge_succeeds (capturedBase64 : JS.nullable_string)
    (upload : string → JS.completion (string * string))
    (item : InventoryRecord.t) (t : Z) :
  (∀ b, ∃ result, upload b = JS.Normal result) →
  Z.abs t <= 8639999222400000 →
  ∃ payload,
    handleAddToFridge LocalTZA MonthStartDay true capturedBase64 upload item t
    = Dispatched payload.
Proof.
  intros Hup Ht. unfold handleAddToFridge. cbn [negb].
  rewrite setDate_getDate_plus.
  assert (Hclip : ∃ u, Date.TimeClip
            (Date.UTC LocalTZA (Date.LocalTime LocalTZA t + 7 * Date.msPerDay)) = Some u).
  { unfold Date.TimeClip, Date.UTC, Date.LocalTime.
    pose proof (LocalTZA_bound t true).
    pose proof (LocalTZA_bound (t + LocalTZA t true + 7 * Date.msPerDay) false).
    unfold Date.msPerDay in *.
    destruct (Z.leb_spec (Z.abs (t + LocalTZA t true + 7 * 86400000
                                 - LocalTZA (t + LocalTZA t true + 7 * 86400000) false))
                8640000000000000); [eauto|lia]. }
  destruct Hclip as [u Hu]. rewrite Hu.
  destruct capturedBase64 as [| |b]; cbn [JS.bind toISOString_date]; eauto.
  destruct (JS.truthy (JS.VStr b)); cbn [JS.bind]; eauto.
  destruct (Hup b) as [result ->]. cbn [JS.bind]. eauto.
Qed.

(** X21: for a signed-out user handleAddAll dispatches nothing, one
    refusal per item.  For a signed-in user whose uploads all succeed it
    dispatches one fridge item per detected item, in detection order, each
    named by its item's label and expiring at least five days after the
    day it was added. *)
Theorem add_all_adds_each
    (capturedBase64 : JS.nullable_string)
    (now : nat → Z) (k : nat) (response : DetectionResponse) :
  let records := Clock.run (DetectionService.processDetectionResults now response) k in
  handleAddAll LocalTZA MonthStartDay false capturedBase64 uploadItemImage today records
  = (λ _, NotSignedIn) <$> records
  ∧ ((∀ i b, ∃ result, uploadItemImage i b = JS.Normal result) →
     (∀ i, Z.abs (today i) <= 8639999222400000) →
     length (handleAddAll LocalTZA MonthStartDay true capturedBase64 uploadItemImage today
               records)
     = length (detected_items response)
     ∧ ∀ i item, detected_items response !! i = Some item →
         ∃ payload,
           handleAddAll LocalTZA MonthStartDay true capturedBase64 uploadItemImage today
             records !! i = Some (Dispatched payload)
           ∧ name payload = DetectedItem.label item
           ∧ Date.Day (today i) + 5 <= expiryDate payload).
Proof.
  intros records. split.
  - unfold handleAddAll. apply list_eq. intros i.
    rewrite list_lookup_imap, list_lookup_fmap. destruct (records !! i); reflexivity.
  - intros Hup Htoday. split.
    + unfold handleAddAll. rewrite length_imap. apply processDetectionResults_length.
    + intros i item Hitem. unfold handleAddAll. rewrite list_lookup_imap.
      unfold records. rewrite processDetectionResults_lookup, Hitem.
      cbn [fmap option_fmap option_map].
      destruct (handleAddToFridge_succeeds capturedBase64 (uploadItemImage i)
                  (Spec.record_at now (k + 2 * i) i item) (today i) (Hup i) (Htoday i))
        as [payload Hpayload].
      exists payload. rewrite Hpayload. split; [reflexivity|].
      apply (handleAddToFridge_dispatched LocalTZA MonthStartDay LocalTZA_bound
               true capturedBase64 (uploadItemImage i)) in Hpayload.
      exact Hpayload.
Qed.

End AddingAll.

Lemma add_all_adds_each_witness :
  ∃ payload,
    ScannerScreen.handleAddAll ScannerExamples.IST ScannerExamples.january_2026 true
      (JS.Str "/9j/4AAQSkZJRg==") (λ _, ScannerExamples.upload_ok)
      (λ _, ScannerExamples.later)
      (Clock.run (DetectionService.processDetectionResults Examples.ticking
                    Examples.readme_response) 0)
    !! 1%nat = Some (Scanner.Dispatched payload)
    ∧ Scanner.name payload = "Milk Packet".
Proof.
  destruct (proj2 (proj2 (add_all_adds_each ScannerExamples.IST ScannerExamples.january_2026
              (λ _, ScannerExamples.upload_ok) (λ _, ScannerExamples.later)
              (λ t isUTC, ltac:(vm_compute; discriminate))
              (JS.Str "/9j/4AAQSkZJRg==") Examples.ticking 0 Examples.readme_response)
              (λ i b, ex_intro _ _ eq_refl)
              (λ i, ltac:(vm_compute; discriminate)))
              1%nat Examples.milk eq_refl)
    as (payload & Hpayload & Hname & _).
  exists payload. split; [exact Hpayload|exact Hname].
Defined.

(** ** Amounts, case by case *)
Section AmountCases.

Import Home.

Variable round : Q → JS.rounded.
Variable items : list FridgeItem.

(** X22: for an item of the list with a finite amount and a finite
    change, handleUpdateAmount asks to remove the item when the new amount
    is zero or less, stores the new amount unchanged when it lies strictly
    between 0 and 1, and stores exactly 1 when it is 1 or more. *)
Theorem update_amount_cases (id0 : string) (item : FridgeItem) (a c s : Q) :
  find (λ i, String.eqb (id i) id0) items = Some item →
  amountLeft item = JS.Fin a →
  round (a + c)%Q = JS.Finite s →
  ((s <= 0)%Q → handleUpdateAmount round items id0 (JS.Fin c) = handleRemoveItem id0)
  ∧ ((0 < s)%Q → (s < 1)%Q →
     handleUpdateAmount round items id0 (JS.Fin c)
     = [ dispatch (updateAmountLeft id0 (JS.Fin s)) ])
  ∧ ((1 <= s)%Q →
     handleUpdateAmount round items id0 (JS.Fin c)
     = [ dispatch (updateAmountLeft id0 (JS.Fin 1)) ]).
Proof.
  intros Hfind Ha Hs. unfold handleUpdateAmount. rewrite Hfind, Ha.
  cbn [JS.add]. rewrite Hs. cbn [JS.of_rounded JS.Math_min JS.lt].
  repeat split.
  - intros Hle.
    assert (H1 : Qle_bool 1 s = false).
    { destruct (Qle_bool 1 s) eqn:E; [|reflexivity].
      apply Qle_bool_iff in E. exfalso.
      apply (Qlt_not_le 0 1); [reflexivity|]. eapply Qle_trans; eassumption. }
    rewrite H1. cbn [negb JS.Math_max JS.lt].
    apply Qle_bool_iff in Hle. rewrite Hle. reflexivity.
  - intros H0 H1.
    assert (E1 : Qle_bool 1 s = false).
    { destruct (Qle_bool 1 s) eqn:E; [|reflexivity].
      apply Qle_bool_iff in E. exfalso. apply (Qlt_not_le _ _ H1 E). }
    assert (E0 : Qle_bool s 0 = false).
    { destruct (Qle_bool s 0) eqn:E; [|reflexivity].
      apply Qle_bool_iff in E. exfalso. apply (Qlt_not_le _ _ H0 E). }
    rewrite E1. cbn [negb JS.Math_max JS.lt]. rewrite E0. cbn [negb JS.strict_eq].
    assert (Ez : Qeq_bool s 0 = false).
    { destruct (Qeq_bool s 0) eqn:E; [|reflexivity].
      apply Qeq_bool_iff in E. rewrite E in H0. exfalso. apply (Qlt_irrefl 0 H0). }
    rewrite Ez. reflexivity.
  - intros H1. apply Qle_bool_iff in H1. rewrite H1. reflexivity.
Qed.

(** X23: handleUpdateAmount never dispatches a removal itself: removing
    is only offered behind the confirmation alert, for the id it was
    called with; it has a single effect at most, and none at all for an
    id that no item has. *)
Theorem update_amount_confirms_removal (id0 : string) (change : JS.number) :
  let effects := handleUpdateAmount round items id0 change in
  (∀ id1, dispatch (removeItem id1) ∉ effects)
  ∧ (length effects <= 1)%nat
  ∧ (find (λ i, String.eqb (id i) id0) items = None → effects = [])
  ∧ Forall (λ e, e = Alert_alert "Remove Item" "Are you sure you want to remove this item?"
                       [ ("Cancel", None); ("Remove", Some (removeItem id0)) ]
                 ∨ ∃ amount, e = dispatch (updateAmountLeft id0 amount)) effects.
Proof.
  unfold handleUpdateAmount.
  destruct (find _ items) as [item|].
  - cbv zeta. destruct (JS.strict_eq _ _).
    + unfold handleRemoveItem. repeat split.
      * intros id1 H. apply list_elem_of_singleton in H. discriminate.
      * simpl. lia.
      * discriminate.
      * repeat constructor.
    + repeat split.
      * intros id1 H. apply list_elem_of_singleton in H. discriminate.
      * simpl. lia.
      * discriminate.
      * constructor; [right; eauto|constructor].
  - repeat split; simpl; auto. intros id1 H. inversion H.
Qed.

End AmountCases.

Lemma update_amount_cases_witness :
  Home.handleUpdateAmount HomeExamples.exact HomeExamples.fridge "item-2" (JS.Fin (- 1 # 4))
  = Home.handleRemoveItem "item-2"
  ∧ Home.handleUpdateAmount HomeExamples.exact HomeExamples.fridge "item-1" (JS.Fin (3 # 4))
    = [ Home.dispatch (Home.updateAmountLeft "item-1" (JS.Fin 1)) ].
Proof.
  split.
  - apply (update_amount_cases HomeExamples.exact HomeExamples.fridge "item-2"
             HomeExamples.butter (1 # 4) (- 1 # 4) 0 eq_refl eq_refl eq_refl).
    discriminate.
  - apply (update_amount_cases HomeExamples.exact HomeExamples.fridge "item-1"
             HomeExamples.yoghurt (1 # 2) (3 # 4) (5 # 4) eq_refl eq_refl eq_refl).
    discriminate.
Defined.

Lemma update_amount_confirms_removal_witness :
  Home.handleUpdateAmount HomeExamples.exact HomeExamples.fridge "item-9" (JS.Fin (1 # 4)) = [].
Proof.
  apply (update_amount_confirms_removal HomeExamples.exact HomeExamples.fridge "item-9"
           (JS.Fin (1 # 4))).
  reflexivity.
Defined.
